(** * Discord recipient targets: parser, resolver and disambiguator

    A shallow embedding of [src/discord/targets.ts].

    - JavaScript strings are sequences of UTF-16 code units: [jsstring] is
      [list N], and the string methods the source calls ([trim],
      [startsWith], [slice], [replace] with an anchored pattern, the
      regular-expression tests) are written out over code units.
    - A function that may [throw] returns a [result]; [undefined] and
      [null] are [None].
    - The one suspension point of [resolveDiscordTarget], the awaited
      directory query, is explicit: the function returns an [async] value
      that is either finished or waiting for the directory's entries. *)

From Stdlib Require Import NArith List Bool Lia String Ascii Permutation.
Import ListNotations.

Open Scope N_scope.

(** ** JavaScript strings *)

Module JS.

Definition jsstring := list N.

(** A string literal of the source, as code units. Literals in this file
    are ASCII, so a code unit is the character's byte. *)
Definition lit (s : String.string) : jsstring :=
  map N_of_ascii (list_ascii_of_string s).

(** The double quote, U+0022. *)
Definition dquote : jsstring := [34].

Definition str_eqb (a b : jsstring) : bool :=
  if list_eq_dec N.eq_dec a b then true else false.

(** A string is truthy when it is not empty. *)
Definition truthy (s : jsstring) : bool :=
  match s with [] => false | _ :: _ => true end.

(** [\d] : the ASCII digits 0-9. *)
Definition isDigit (c : N) : bool := (48 <=? c) && (c <=? 57).

(** WhiteSpace and LineTerminator of ECMAScript, the code units that
    [String.prototype.trim] removes: TAB, LF, VT, FF, CR, SP, NBSP,
    U+1680, U+2000..U+200A, LS, PS, U+202F, U+205F, U+3000 and the BOM. *)
Definition isWhiteSpace (c : N) : bool :=
  ((9 <=? c) && (c <=? 13))
  || (c =? 32) || (c =? 160) || (c =? 5760)
  || ((8192 <=? c) && (c <=? 8202))
  || (c =? 8232) || (c =? 8233) || (c =? 8239) || (c =? 8287)
  || (c =? 12288) || (c =? 65279).

Fixpoint dropWhile (p : N -> bool) (s : jsstring) : jsstring :=
  match s with
  | [] => []
  | c :: s' => if p c then dropWhile p s' else s
  end.

Fixpoint takeWhile (p : N -> bool) (s : jsstring) : jsstring :=
  match s with
  | [] => []
  | c :: s' => if p c then c :: takeWhile p s' else []
  end.

Definition trimStart (s : jsstring) : jsstring := dropWhile isWhiteSpace s.

Definition trimEnd (s : jsstring) : jsstring :=
  rev (dropWhile isWhiteSpace (rev s)).

(** [s.trim()] *)
Definition trim (s : jsstring) : jsstring := trimEnd (trimStart s).

(** [s.startsWith(p)] *)
Fixpoint startsWith (p s : jsstring) : bool :=
  match p, s with
  | [], _ => true
  | _ :: _, [] => false
  | a :: p', b :: s' => (a =? b) && startsWith p' s'
  end.

(** [s.slice(n)] for a non-negative [n]. *)
Definition slice (n : nat) (s : jsstring) : jsstring := skipn n s.

(** [/^\d+$/.test(s)] : one digit or more and nothing else. *)
Definition allDigits (s : jsstring) : bool :=
  truthy s && forallb isDigit s.

(** [/[\d]+$/.test(s)] : the pattern is not anchored at the start, so it
    holds exactly when the last code unit is a digit. *)
Definition endsWithDigit (s : jsstring) : bool :=
  match rev s with
  | [] => false
  | c :: _ => isDigit c
  end.

(** [s.replace(/^p/, empty)] for a literal [p]: drop [p] when [s]
    starts with it. *)
Definition stripPrefix (p s : jsstring) : jsstring :=
  if startsWith p s then slice (List.length p) s else s.

(** [s.includes(p)] *)
Fixpoint includes (p s : jsstring) : bool :=
  startsWith p s ||
  match s with
  | [] => false
  | _ :: s' => includes p s'
  end.

(** Lower-casing of the Basic Latin letters; on a string of ASCII code
    units this is what [String.prototype.toLowerCase] computes. *)
Definition asciiToLowerCase (s : jsstring) : jsstring :=
  map (fun c => if (65 <=? c) && (c <=? 90) then c + 32 else c) s.

End JS.

Import JS.

(** ** Targets *)

(** Modelled from the spec: the types [MessagingTargetKind],
    [MessagingTarget] and [MessagingTargetParseOptions] are declared in
    [channels/targets.ts], which is not among the sources. The spec gives
    a target as a kind, [user] or [channel], an id and the raw string, and
    the options as an optional default kind and an optional message for
    the ambiguity error. *)
Inductive MessagingTargetKind := user | channel.

Definition kind_eqb (a b : MessagingTargetKind) : bool :=
  match a, b with
  | user, user | channel, channel => true
  | _, _ => false
  end.

(** [MessagingTarget]: the addressee and the string it was built from. *)
Record MessagingTarget := mkTarget {
  target_kind : MessagingTargetKind;
  target_id : jsstring;
  target_raw : jsstring
}.

(** ** Results of code that may throw *)

(** What a [throw] carries. [Error] is [new Error(message)] with the
    message of the source. The two other constructors are the failures of
    helpers of [channels/targets.ts], whose messages the source file does
    not show. *)
Inductive error :=
| Error (message : jsstring)
| EmptyTargetId
| KindMismatch (platform : jsstring) (required : MessagingTargetKind)
               (got : option MessagingTargetKind).

Inductive result (A : Type) :=
| Ok (a : A)
| Throw (e : error).

Arguments Ok {A} a.
Arguments Throw {A} e.

Definition bind {A B} (r : result A) (k : A -> result B) : result B :=
  match r with
  | Ok a => k a
  | Throw e => Throw e
  end.

Notation "x <- r ;; k" := (bind r (fun x => k))
  (at level 61, r at next level, right associativity).

(** [MessagingTargetParseOptions] *)
Record MessagingTargetParseOptions := mkOptions {
  defaultKind : option MessagingTargetKind;
  ambiguousMessage : option jsstring
}.

(** The default value [{}] of the options parameter. *)
Definition noOptions : MessagingTargetParseOptions := mkOptions None None.

(** ** Helpers imported from [channels/targets.ts] *)

(** Modelled from the spec: [buildMessagingTarget] is imported from
    [channels/targets.ts], which is not among the sources. The spec gives
    [buildTarget(kind, id, raw) -> MessagingTarget], failing if [id] is
    empty. *)
Definition buildMessagingTarget (kind : MessagingTargetKind)
    (id raw : jsstring) : result MessagingTarget :=
  if truthy id then Ok (mkTarget kind id raw) else Throw EmptyTargetId.

(** Modelled from the spec: [ensureTargetId] is imported from
    [channels/targets.ts], which is not among the sources. The spec gives
    [assertId({candidate, pattern, errorMessage}) -> string], failing with
    [errorMessage] if [candidate] does not match [pattern]. The pattern is
    passed as its test function. *)
Definition ensureTargetId (candidate : jsstring)
    (pattern : jsstring -> bool) (errorMessage : jsstring) : result jsstring :=
  if pattern candidate then Ok candidate else Throw (Error errorMessage).

(** Modelled from the spec: [requireTargetKind] is imported from
    [channels/targets.ts], which is not among the sources. The spec gives
    [requireKind({platform, target, kind}) -> id], failing with a
    platform-labeled message if [target] is undefined or
    [target.kind !== kind]. *)
Definition requireTargetKind (platform : jsstring)
    (target : option MessagingTarget) (kind : MessagingTargetKind)
    : result jsstring :=
  match target with
  | None => Throw (KindMismatch platform kind None)
  | Some t =>
      if kind_eqb (target_kind t) kind then Ok (target_id t)
      else Throw (KindMismatch platform kind (Some (target_kind t)))
  end.

(** ** The syntax parser *)

(** [trimmed.match(/^<@!?(\d+)>$/)]: the captured digits, or [None]. The
    optional [!] is followed by a digit, so the match is deterministic:
    after [<@] and the [!] when there is one, the longest run of digits
    must be non-empty and followed by [>] and the end of the string. *)
Definition mentionMatch (s : jsstring) : option jsstring :=
  if startsWith (lit "<@") s then
    let r := slice 2 s in
    let r := if startsWith (lit "!") r then slice 1 r else r in
    let digits := takeWhile isDigit r in
    if truthy digits && str_eqb (dropWhile isDigit r) (lit ">")
    then Some digits else None
  else None.

Definition invalidMentionMessage : jsstring :=
  lit "Discord DMs require a user id (use user:<id> or a <@id> mention)".

(** The generic message of the ambiguity error, a template over the
    trimmed input. *)
Definition ambiguousRecipientMessage (trimmed : jsstring) : jsstring :=
  lit "Ambiguous Discord recipient " ++ dquote ++ trimmed ++ dquote
  ++ lit ". Use " ++ dquote ++ lit "user:" ++ trimmed ++ dquote
  ++ lit " for DMs or " ++ dquote ++ lit "channel:" ++ trimmed ++ dquote
  ++ lit " for channel messages.".

Definition parseDiscordTarget (raw : jsstring)
    (options : MessagingTargetParseOptions)
    : result (option MessagingTarget) :=
  let trimmed := trim raw in
  if negb (truthy trimmed) then Ok None else
  match mentionMatch trimmed with
  | Some digits =>
      t <- buildMessagingTarget user digits trimmed ;; Ok (Some t)
  | None =>
  if startsWith (lit "user:") trimmed then
    let id := trim (slice 5 trimmed) in
    if truthy id
    then t <- buildMessagingTarget user id trimmed ;; Ok (Some t)
    else Ok None
  else if startsWith (lit "channel:") trimmed then
    let id := trim (slice 8 trimmed) in
    if truthy id
    then t <- buildMessagingTarget channel id trimmed ;; Ok (Some t)
    else Ok None
  else if startsWith (lit "discord:") trimmed then
    let id := trim (slice 8 trimmed) in
    if truthy id
    then t <- buildMessagingTarget user id trimmed ;; Ok (Some t)
    else Ok None
  else if startsWith (lit "@") trimmed then
    let candidate := trim (slice 1 trimmed) in
    id <- ensureTargetId candidate allDigits invalidMentionMessage ;;
    t <- buildMessagingTarget user id trimmed ;; Ok (Some t)
  else if allDigits trimmed then
    match defaultKind options with
    | Some k => t <- buildMessagingTarget k trimmed trimmed ;; Ok (Some t)
    | None =>
        Throw (Error (match ambiguousMessage options with
                      | Some m => m
                      | None => ambiguousRecipientMessage trimmed
                      end))
    end
  else
    t <- buildMessagingTarget channel trimmed trimmed ;; Ok (Some t)
  end.

Definition resolveDiscordChannelId (raw : jsstring) : result jsstring :=
  target <- parseDiscordTarget raw (mkOptions (Some channel) None) ;;
  requireTargetKind (lit "Discord") target channel.

(** ** The directory-assisted resolver *)

(** An entry of the directory; every field may be absent. *)
Record DirectoryEntry := mkEntry {
  entry_kind : option jsstring;
  entry_id : option jsstring;
  entry_name : option jsstring;
  entry_handle : option jsstring
}.

(** A computation with at most one suspension point: it has finished, or
    it awaits [listDiscordDirectoryPeersLive] on the given parameters and
    goes on with the entries the directory answers. *)
Inductive async (P A : Type) :=
| Return (r : result A)
| Await (params : P) (query : jsstring) (limit : N)
        (k : list DirectoryEntry -> result A).

Arguments Return {P A} r.
Arguments Await {P A} params query limit k.

(** Running a computation against a directory; a rejected query rejects
    the whole resolution. *)
Definition run {P A}
    (directory : P -> jsstring -> N -> result (list DirectoryEntry))
    (c : async P A) : result A :=
  match c with
  | Return r => r
  | Await params query limit k =>
      entries <- directory params query limit ;; k entries
  end.

(** The number of directory queries a computation makes. *)
Definition directoryCalls {P A} (c : async P A) : nat :=
  match c with
  | Return _ => 0%nat
  | Await _ _ _ _ => 1%nat
  end.

Definition safeParseDiscordTarget (input : jsstring)
    (options : MessagingTargetParseOptions) : option MessagingTarget :=
  match parseDiscordTarget input options with
  | Ok t => t
  | Throw _ => None
  end.

Definition isExplicitUserLookup (input : jsstring)
    (options : MessagingTargetParseOptions) : bool :=
  match mentionMatch input with
  | Some _ => true
  | None =>
  if startsWith (lit "user:") input || startsWith (lit "discord:") input
  then true
  else if startsWith (lit "@") input then true
  else if allDigits input then
    match defaultKind options with
    | Some user => true
    | _ => false
    end
  else false
  end.

(** The test is [/^(user:|channel:|discord:|@|<@!?)|[\d]+$/]: one of the
    listed starts, or a final digit. *)
Definition isLikelyUsername (input : jsstring) : bool :=
  if startsWith (lit "user:") input
     || startsWith (lit "channel:") input
     || startsWith (lit "discord:") input
     || startsWith (lit "@") input
     || startsWith (lit "<@") input
     || endsWithDigit input
  then false
  else true.

(** [id.replace(/^user:/i, empty)]: without the unicode flag a pattern
    letter matches its two ASCII cases only. *)
Definition stripUserPrefixIgnoreCase (s : jsstring) : jsstring :=
  match s with
  | u :: s0 :: e :: r :: colon :: rest =>
      if ((u =? 117) || (u =? 85)) && ((s0 =? 115) || (s0 =? 83))
         && ((e =? 101) || (e =? 69)) && ((r =? 114) || (r =? 82))
         && (colon =? 58)
      then rest else s
  | _ => s
  end.

(** [a === b] where [a] may be undefined. *)
Definition optEquals (a : option jsstring) (b : jsstring) : bool :=
  match a with
  | Some a' => str_eqb a' b
  | None => false
  end.

(** [!selected] for a string or null: null and the empty string are
    both falsy. *)
Definition nonEmpty (selected : option jsstring) : option jsstring :=
  match selected with
  | Some s => if truthy s then Some s else None
  | None => None
  end.

(** The message shows the string between double quotes. *)
Definition quotes (s message : jsstring) : bool :=
  includes (dquote ++ s ++ dquote) message.

Definition didNotMatchMessage (trimmed : jsstring) : jsstring :=
  lit "Discord recipient " ++ dquote ++ trimmed ++ dquote
  ++ lit " did not match a user. Use " ++ dquote ++ lit "user:<id>" ++ dquote
  ++ lit " or " ++ dquote ++ lit "<@id>" ++ dquote ++ lit " for DMs, or "
  ++ dquote ++ lit "channel:<id>" ++ dquote ++ lit " for channel messages.".

Definition multipleMatchedMessage (trimmed : jsstring) : jsstring :=
  lit "Multiple Discord users matched " ++ dquote ++ trimmed ++ dquote
  ++ lit ". Use " ++ dquote ++ lit "user:<id>" ++ dquote ++ lit " or "
  ++ dquote ++ lit "<@id>" ++ dquote ++ lit " to disambiguate.".

Section Resolver.

(** [String.prototype.toLowerCase], whose case table is Unicode's; the
    development holds for any such function. *)
Variable toLowerCase : jsstring -> jsstring.

(** [DirectoryConfigParams], passed through to the directory untouched. *)
Variable DirectoryConfigParams : Type.

(** The first filter: [entry.kind === "user" && entry.id]. *)
Definition isUserEntry (entry : DirectoryEntry) : bool :=
  optEquals (entry_kind entry) (lit "user")
  && match entry_id entry with
     | Some id => truthy id
     | None => false
     end.

(** The second filter, the exact matches of the normalized query. *)
Definition isExactMatch (normalizedQuery : jsstring)
    (entry : DirectoryEntry) : bool :=
  let name := option_map (fun s => toLowerCase (trim s)) (entry_name entry) in
  let handle :=
    option_map (fun s => stripPrefix (lit "@") (toLowerCase (trim s)))
               (entry_handle entry) in
  let id :=
    option_map (fun s => stripPrefix (lit "user:") (toLowerCase (trim s)))
               (entry_id entry) in
  optEquals name normalizedQuery
  || optEquals handle normalizedQuery
  || optEquals id normalizedQuery.

Definition selectDiscordUserMatch (query : jsstring)
    (entries : list DirectoryEntry) : option jsstring :=
  let users := filter isUserEntry entries in
  match users with
  | [] => None
  | _ :: _ =>
  let normalizedQuery := toLowerCase (trim query) in
  let exactMatches := filter (isExactMatch normalizedQuery) users in
  let selected :=
    match exactMatches with
    | [e] => Some e
    | _ => match users with
           | [e] => Some e
           | _ => None
           end
    end in
  match selected with
  | None => None
  | Some entry =>
      match entry_id entry with
      | None => None
      | Some id =>
          if truthy id then
            let resolvedId := trim (stripUserPrefixIgnoreCase id) in
            if truthy resolvedId then Some resolvedId else None
          else None
      end
  end
  end.

Definition resolveDiscordTarget (raw : jsstring)
    (options : DirectoryConfigParams)
    (parseOptions : MessagingTargetParseOptions)
    : async DirectoryConfigParams (option MessagingTarget) :=
  let trimmed := trim raw in
  if negb (truthy trimmed) then Return (Ok None) else
  let likelyUsername := isLikelyUsername trimmed in
  let shouldLookup :=
    isExplicitUserLookup trimmed parseOptions || likelyUsername in
  let directParse := safeParseDiscordTarget trimmed parseOptions in
  let bypass :=
    match directParse with
    | Some t => negb (kind_eqb (target_kind t) channel) && negb likelyUsername
    | None => false
    end in
  if bypass then Return (Ok directParse)
  else if negb shouldLookup then
    Return (match directParse with
            | Some t => Ok (Some t)
            | None => parseDiscordTarget trimmed parseOptions
            end)
  else
    Await options trimmed 5 (fun directoryEntries =>
      match nonEmpty (selectDiscordUserMatch trimmed directoryEntries) with
      | None =>
          match directoryEntries with
          | [] => Throw (Error (didNotMatchMessage trimmed))
          | _ :: _ => Throw (Error (multipleMatchedMessage trimmed))
          end
      | Some selected =>
          t <- buildMessagingTarget user selected trimmed ;; Ok (Some t)
      end).

End Resolver.

Arguments resolveDiscordTarget toLowerCase {DirectoryConfigParams}
  raw options parseOptions.

(** ** Predicates of the statements *)

(** The string is empty or its first code unit fails the test; this is
    what [dropWhile] leaves. *)
Definition headFails (p : N -> bool) (s : jsstring) : bool :=
  match s with
  | [] => true
  | c :: _ => negb (p c)
  end.

(** A string that [trim] leaves alone: neither end is white space. *)
Definition isTrimmed (s : jsstring) : bool :=
  headFails isWhiteSpace s && headFails isWhiteSpace (rev s).

(** The id the disambiguator returns for the entry it has chosen: the
    entry's id without a leading [user:] in any case, trimmed, if that is
    not empty. *)
Definition resolvedId (entry : DirectoryEntry) : option jsstring :=
  match entry_id entry with
  | Some id => nonEmpty (Some (trim (stripUserPrefixIgnoreCase id)))
  | None => None
  end.

(** * Properties *)

(** ** Strings *)

Section DropWhile.

Variable p : N -> bool.

Lemma dropWhile_headFails s : headFails p (dropWhile p s) = true.
Proof.
  induction s as [|c s IH]; simpl; [reflexivity|].
  destruct (p c) eqn:E; [exact IH|]. simpl. now rewrite E.
Qed.

Lemma dropWhile_fixed s : headFails p s = true -> dropWhile p s = s.
Proof.
  destruct s as [|c s]; simpl; [reflexivity|].
  now destruct (p c).
Qed.

Lemma takeWhile_dropWhile s : takeWhile p s ++ dropWhile p s = s.
Proof.
  induction s as [|c s IH]; simpl; [reflexivity|].
  destruct (p c); simpl; [now rewrite IH | reflexivity].
Qed.

Lemma takeWhile_all s : forallb p (takeWhile p s) = true.
Proof.
  induction s as [|c s IH]; simpl; [reflexivity|].
  destruct (p c) eqn:E; simpl; [now rewrite E | reflexivity].
Qed.

Lemma dropWhile_app_all w s :
  forallb p w = true -> dropWhile p (w ++ s) = dropWhile p s.
Proof.
  induction w as [|c w IH]; simpl; [reflexivity|].
  intros H. apply andb_prop in H as [Hc Hw]. rewrite Hc. now apply IH.
Qed.

Lemma forallb_rev (s : jsstring) : forallb p (rev s) = forallb p s.
Proof.
  induction s as [|c s IH]; simpl; [reflexivity|].
  rewrite forallb_app, IH. simpl. rewrite andb_true_r. apply andb_comm.
Qed.

End DropWhile.

Lemma trim_fixed s : isTrimmed s = true -> trim s = s.
Proof.
  unfold isTrimmed, trim, trimEnd, trimStart. intros H.
  apply andb_prop in H as [Hh Hl].
  rewrite (dropWhile_fixed _ s Hh), (dropWhile_fixed _ (rev s) Hl).
  apply rev_involutive.
Qed.

Lemma headFails_app_l p (a b : jsstring) :
  a <> [] -> headFails p (a ++ b) = headFails p a.
Proof. destruct a; [congruence | reflexivity]. Qed.

Lemma trim_isTrimmed s : isTrimmed (trim s) = true.
Proof.
  unfold isTrimmed, trim, trimEnd, trimStart.
  set (a := dropWhile isWhiteSpace s).
  assert (Ha : headFails isWhiteSpace a = true) by apply dropWhile_headFails.
  set (b := dropWhile isWhiteSpace (rev a)).
  assert (Hb : headFails isWhiteSpace b = true) by apply dropWhile_headFails.
  rewrite rev_involutive, Hb, andb_true_r.
  destruct b as [|c b'] eqn:Eb; [reflexivity|].
  assert (Hs : a = rev (c :: b') ++ rev (takeWhile isWhiteSpace (rev a))).
  { rewrite <- rev_app_distr, <- Eb. subst b.
    now rewrite takeWhile_dropWhile, rev_involutive. }
  rewrite Hs in Ha. rewrite headFails_app_l in Ha; [exact Ha|].
  simpl. intros E. now apply app_eq_nil in E as [_ E].
Qed.

Lemma trim_idempotent s : trim (trim s) = trim s.
Proof. apply trim_fixed, trim_isTrimmed. Qed.

(** White space after a trimmed, non-empty string is what [trim] removes. *)
Lemma trim_app_whitespace s ws :
  s <> [] -> isTrimmed s = true -> forallb isWhiteSpace ws = true ->
  trim (s ++ ws) = s.
Proof.
  unfold isTrimmed, trim, trimEnd, trimStart. intros Hne H Hws.
  apply andb_prop in H as [Hh Hl].
  rewrite (dropWhile_fixed _ (s ++ ws)) by now rewrite headFails_app_l.
  rewrite rev_app_distr, dropWhile_app_all by now rewrite forallb_rev.
  rewrite (dropWhile_fixed _ (rev s) Hl). apply rev_involutive.
Qed.

Lemma isDigit_not_whitespace c : isDigit c = true -> isWhiteSpace c = false.
Proof.
  unfold isDigit, isWhiteSpace. intros H.
  apply andb_prop in H as [H1 H2].
  apply N.leb_le in H1, H2.
  repeat (apply orb_false_intro);
    try (apply N.eqb_neq; lia);
    apply andb_false_iff; rewrite !N.leb_gt; lia.
Qed.

Lemma digits_headFails s :
  forallb isDigit s = true -> headFails isWhiteSpace s = true.
Proof.
  destruct s as [|c s]; simpl; [reflexivity|]. intros H.
  apply andb_prop in H as [H _]. now rewrite (isDigit_not_whitespace c H).
Qed.

Lemma allDigits_isTrimmed s : allDigits s = true -> isTrimmed s = true.
Proof.
  unfold allDigits, isTrimmed. intros H. apply andb_prop in H as [_ H].
  rewrite !digits_headFails; [reflexivity | now rewrite forallb_rev | exact H].
Qed.

Lemma allDigits_trim s : allDigits s = true -> trim s = s.
Proof. intros H. now apply trim_fixed, allDigits_isTrimmed. Qed.

Lemma truthy_nonempty s : truthy s = true <-> s <> [].
Proof. destruct s; simpl; split; congruence. Qed.

Lemma str_eqb_eq a b : str_eqb a b = true <-> a = b.
Proof.
  unfold str_eqb. destruct (list_eq_dec N.eq_dec a b); split; congruence.
Qed.

Lemma startsWith_split p s :
  startsWith p s = true -> s = p ++ slice (List.length p) s.
Proof.
  revert s. induction p as [|a p IH]; intros [|b s]; simpl; try congruence.
  intros H. apply andb_prop in H as [Hab H]. apply N.eqb_eq in Hab.
  subst b. f_equal. now apply IH.
Qed.

Lemma startsWith_app p s : startsWith p (p ++ s) = true.
Proof.
  induction p as [|a p IH]; simpl; [reflexivity|].
  now rewrite N.eqb_refl, IH.
Qed.

Lemma startsWith_app_l p s b :
  startsWith p s = true -> startsWith p (s ++ b) = true.
Proof.
  revert s. induction p as [|a p IH]; [reflexivity|].
  intros [|c s]; [discriminate|]. simpl. intros H.
  apply andb_prop in H as [Hc H]. now rewrite Hc, IH.
Qed.

Lemma includes_startsWith p s : startsWith p s = true -> includes p s = true.
Proof. intros H. destruct s; simpl; now rewrite H. Qed.

Lemma includes_here p s : includes p (p ++ s) = true.
Proof. apply includes_startsWith, startsWith_app. Qed.

Lemma includes_app_r p a s : includes p s = true -> includes p (a ++ s) = true.
Proof.
  intros H. induction a as [|c a IH]; simpl; [exact H|].
  rewrite IH. apply orb_true_r.
Qed.

Lemma includes_app_l p s b : includes p s = true -> includes p (s ++ b) = true.
Proof.
  induction s as [|c s IH]; simpl; intros H.
  - rewrite orb_false_r in H. apply includes_startsWith.
    now apply (startsWith_app_l p [] b).
  - apply orb_true_iff in H as [H|H].
    + apply (startsWith_app_l p (c :: s) b) in H. simpl in H.
      now rewrite H.
    + rewrite (IH H). apply orb_true_r.
Qed.

Lemma quotes_intro s a b : quotes s (a ++ dquote ++ s ++ dquote ++ b) = true.
Proof.
  unfold quotes. apply includes_app_r.
  replace (dquote ++ s ++ dquote ++ b) with ((dquote ++ s ++ dquote) ++ b)
    by now rewrite <- !app_assoc.
  apply includes_here.
Qed.

(** ** The parser *)

(** Literals of the source, brought to their code units. *)
Ltac eval_lits :=
  repeat match goal with
  | |- context [lit ?x] =>
      let v := eval vm_compute in (lit x) in change (lit x) with v
  end.

(** The first code unit of a string that starts with a non-empty literal. *)
Lemma startsWith_head a p c s : startsWith (a :: p) (c :: s) = true -> a = c.
Proof.
  simpl. intros H. apply andb_prop in H as [H _]. now apply N.eqb_eq.
Qed.

Lemma startsWith_digit_false a p s :
  isDigit a = false -> allDigits s = true -> startsWith (a :: p) s = false.
Proof.
  intros Ha Hs. destruct s as [|c s]; [reflexivity|].
  destruct (startsWith (a :: p) (c :: s)) eqn:E; [|reflexivity].
  apply startsWith_head in E. subst c.
  unfold allDigits in Hs. simpl in Hs. rewrite Ha in Hs. discriminate.
Qed.

Lemma mentionMatch_digits s : allDigits s = true -> mentionMatch s = None.
Proof.
  intros H. unfold mentionMatch. eval_lits.
  now rewrite (startsWith_digit_false 60 [64] s eq_refl H).
Qed.

(** What the parser does on a string of digits, whatever the options. *)
Lemma parseDiscordTarget_digits s options :
  allDigits s = true ->
  parseDiscordTarget s options =
    match defaultKind options with
    | Some k => Ok (Some (mkTarget k s s))
    | None =>
        Throw (Error (match ambiguousMessage options with
                      | Some m => m
                      | None => ambiguousRecipientMessage s
                      end))
    end.
Proof.
  intros H. unfold parseDiscordTarget.
  rewrite (allDigits_trim s H), (mentionMatch_digits s H).
  assert (Ht : truthy s = true) by (unfold allDigits in H; now apply andb_prop in H).
  rewrite Ht. cbn [negb]. eval_lits.
  rewrite !startsWith_digit_false by (reflexivity || exact H).
  rewrite H. unfold buildMessagingTarget. rewrite Ht.
  now destruct (defaultKind options).
Qed.

(** The text of the generic ambiguity message. *)
Lemma ambiguousRecipientMessage_content trimmed :
  includes (lit "Ambiguous Discord recipient")
           (ambiguousRecipientMessage trimmed) = true
  /\ quotes trimmed (ambiguousRecipientMessage trimmed) = true
  /\ quotes (lit "user:" ++ trimmed) (ambiguousRecipientMessage trimmed) = true
  /\ quotes (lit "channel:" ++ trimmed) (ambiguousRecipientMessage trimmed)
     = true
  /\ includes (lit "for DMs") (ambiguousRecipientMessage trimmed) = true
  /\ includes (lit "for channel messages")
              (ambiguousRecipientMessage trimmed) = true.
Proof.
  unfold ambiguousRecipientMessage.
  split; [|split; [|split; [|split; [|split]]]].
  - apply includes_app_l with (s := lit "Ambiguous Discord recipient ").
    reflexivity.
  - apply quotes_intro.
  - unfold quotes. do 5 apply includes_app_r.
    exact (quotes_intro (lit "user:" ++ trimmed) [] _).
  - unfold quotes. do 10 apply includes_app_r.
    exact (quotes_intro (lit "channel:" ++ trimmed) [] _).
  - do 9 apply includes_app_r.
    apply includes_app_l with (s := lit " for DMs or "). reflexivity.
  - do 14 apply includes_app_r. reflexivity.
Qed.

(** C3. On a non-empty string of decimal digits, parsing without a
    default kind throws the ambiguity error, whose message is the caller's
    [ambiguousMessage] when there is one and the generic message
    otherwise; parsing with the default kind [channel] returns the channel
    target whose id is the string. The generic message is the template of
    the source over the string: it names the ambiguous recipient between
    quotes and proposes the string after [user:] for DMs and after
    [channel:] for channel messages, both between quotes. *)
Theorem parseDiscordTarget_bare_digits s options :
  allDigits s = true ->
  (defaultKind options = None ->
   parseDiscordTarget s options =
     Throw (Error (match ambiguousMessage options with
                   | Some m => m
                   | None => ambiguousRecipientMessage s
                   end)))
  /\ (forall m, parseDiscordTarget s (mkOptions (Some channel) m)
                = Ok (Some (mkTarget channel s s)))
  /\ ambiguousRecipientMessage s
     = lit "Ambiguous Discord recipient " ++ dquote ++ s ++ dquote
       ++ lit ". Use " ++ dquote ++ lit "user:" ++ s ++ dquote
       ++ lit " for DMs or " ++ dquote ++ lit "channel:" ++ s ++ dquote
       ++ lit " for channel messages."
  /\ (includes (lit "Ambiguous Discord recipient")
               (ambiguousRecipientMessage s) = true
      /\ quotes s (ambiguousRecipientMessage s) = true
      /\ quotes (lit "user:" ++ s) (ambiguousRecipientMessage s) = true
      /\ quotes (lit "channel:" ++ s) (ambiguousRecipientMessage s) = true
      /\ includes (lit "for DMs") (ambiguousRecipientMessage s) = true
      /\ includes (lit "for channel messages")
                  (ambiguousRecipientMessage s) = true).
Proof.
  intros H. split; [|split; [|split]].
  - intros Hd. rewrite (parseDiscordTarget_digits s options H). now rewrite Hd.
  - intros m. now rewrite (parseDiscordTarget_digits s _ H).
  - reflexivity.
  - apply ambiguousRecipientMessage_content.
Qed.

Lemma parseDiscordTarget_bare_digits_witness :
  allDigits (lit "12345") = true
  /\ parseDiscordTarget (lit "12345") noOptions
     = Throw (Error (ambiguousRecipientMessage (lit "12345")))
  /\ parseDiscordTarget (lit "12345") (mkOptions None (Some (lit "pick one")))
     = Throw (Error (lit "pick one"))
  /\ parseDiscordTarget (lit "12345") (mkOptions (Some channel) None)
     = Ok (Some (mkTarget channel (lit "12345") (lit "12345")))
  /\ ambiguousRecipientMessage (lit "12345")
     = lit "Ambiguous Discord recipient " ++ dquote ++ lit "12345" ++ dquote
       ++ lit ". Use " ++ dquote ++ lit "user:12345" ++ dquote
       ++ lit " for DMs or " ++ dquote ++ lit "channel:12345" ++ dquote
       ++ lit " for channel messages."
  /\ quotes (lit "channel:12345") (ambiguousRecipientMessage (lit "12345"))
     = true.
Proof.
  split; [reflexivity|].
  pose proof (parseDiscordTarget_bare_digits (lit "12345") noOptions eq_refl)
    as [Hthrow [Hchannel [Htext [_ [_ [_ [Hquoted _]]]]]]].
  pose proof (parseDiscordTarget_bare_digits (lit "12345")
                (mkOptions None (Some (lit "pick one"))) eq_refl)
    as [Hcustom _].
  split; [exact (Hthrow eq_refl)|].
  split; [exact (Hcustom eq_refl)|].
  split; [exact (Hchannel None)|].
  split; [exact Htext | exact Hquoted].
Defined.

Lemma isTrimmed_app a b :
  a <> [] -> b <> [] ->
  headFails isWhiteSpace a = true -> headFails isWhiteSpace (rev b) = true ->
  isTrimmed (a ++ b) = true.
Proof.
  intros Ha Hb Hh Hl. unfold isTrimmed.
  rewrite rev_app_distr, !headFails_app_l, Hh, Hl; try assumption.
  - reflexivity.
  - intros E. apply (f_equal (@rev N)) in E. rewrite rev_involutive in E.
    now apply Hb.
Qed.

Lemma takeWhile_app_stop p d c r :
  forallb p d = true -> p c = false -> takeWhile p (d ++ c :: r) = d.
Proof.
  intros Hd Hc. induction d as [|x d IH]; simpl in *; [now rewrite Hc|].
  apply andb_prop in Hd as [Hx Hd]. now rewrite Hx, IH.
Qed.

(** A mention of a non-empty string of digits, with or without [!]. *)
Lemma mentionMatch_digits_wrapped digits :
  allDigits digits = true ->
  mentionMatch (lit "<@" ++ digits ++ lit ">") = Some digits
  /\ mentionMatch (lit "<@!" ++ digits ++ lit ">") = Some digits.
Proof.
  intros H. pose proof H as H0. unfold allDigits in H0.
  apply andb_prop in H0 as [Ht Hd].
  assert (Hb : startsWith (lit "!") (digits ++ lit ">") = false).
  { destruct digits as [|c ds]; [discriminate|].
    apply (startsWith_digit_false 33 [] (c :: ds) eq_refl) in H.
    simpl in *. now rewrite andb_true_r in *. }
  change (lit "!") with [33] in Hb. change (lit ">") with [62] in Hb.
  unfold mentionMatch. eval_lits.
  change ([60; 64] ++ digits ++ [62]) with (60 :: 64 :: digits ++ [62]).
  change ([60; 64; 33] ++ digits ++ [62])
    with (60 :: 64 :: 33 :: digits ++ [62]).
  change (startsWith [60; 64] (60 :: 64 :: digits ++ [62])) with true.
  change (startsWith [60; 64] (60 :: 64 :: 33 :: digits ++ [62])) with true.
  cbv iota.
  change (slice 2 (60 :: 64 :: digits ++ [62])) with (digits ++ [62]).
  change (slice 2 (60 :: 64 :: 33 :: digits ++ [62]))
    with (33 :: digits ++ [62]).
  change (startsWith [33] (33 :: digits ++ [62])) with true.
  cbv iota.
  change (slice 1 (33 :: digits ++ [62])) with (digits ++ [62]).
  rewrite Hb, (takeWhile_app_stop isDigit digits 62 [] Hd eq_refl).
  rewrite (dropWhile_app_all isDigit digits [62] Hd), Ht.
  split; reflexivity.
Qed.

Lemma parseDiscordTarget_mention digits options :
  allDigits digits = true ->
  parseDiscordTarget (lit "<@" ++ digits ++ lit ">") options
    = Ok (Some (mkTarget user digits (lit "<@" ++ digits ++ lit ">")))
  /\ parseDiscordTarget (lit "<@!" ++ digits ++ lit ">") options
    = Ok (Some (mkTarget user digits (lit "<@!" ++ digits ++ lit ">"))).
Proof.
  intros H.
  destruct (mentionMatch_digits_wrapped digits H) as [M1 M2].
  assert (Ht : truthy digits = true)
    by (unfold allDigits in H; now apply andb_prop in H).
  unfold parseDiscordTarget.
  rewrite (trim_fixed (lit "<@" ++ digits ++ lit ">")),
          (trim_fixed (lit "<@!" ++ digits ++ lit ">"))
    by (apply isTrimmed_app;
        [discriminate | now destruct digits | reflexivity
         | now rewrite rev_app_distr]).
  rewrite M1, M2. unfold buildMessagingTarget. rewrite Ht.
  split; reflexivity.
Qed.

Lemma parseDiscordTarget_prefixed id options :
  truthy id = true -> isTrimmed id = true ->
  parseDiscordTarget (lit "user:" ++ id) options
    = Ok (Some (mkTarget user id (lit "user:" ++ id)))
  /\ parseDiscordTarget (lit "discord:" ++ id) options
    = Ok (Some (mkTarget user id (lit "discord:" ++ id)))
  /\ parseDiscordTarget (lit "channel:" ++ id) options
    = Ok (Some (mkTarget channel id (lit "channel:" ++ id))).
Proof.
  intros Ht Hi.
  assert (Hne : id <> []) by now apply truthy_nonempty.
  assert (Hl : headFails isWhiteSpace (rev id) = true)
    by (unfold isTrimmed in Hi; now apply andb_prop in Hi).
  unfold parseDiscordTarget.
  rewrite (trim_fixed (lit "user:" ++ id)),
          (trim_fixed (lit "discord:" ++ id)),
          (trim_fixed (lit "channel:" ++ id))
    by (apply isTrimmed_app;
        [discriminate | exact Hne | reflexivity | exact Hl]).
  repeat split;
    cbn [lit list_ascii_of_string map app mentionMatch startsWith slice
         skipn N_of_ascii N.eqb Pos.eqb andb truthy negb];
    rewrite (trim_fixed id Hi), Ht;
    unfold buildMessagingTarget; rewrite Ht; reflexivity.
Qed.

(** C6. The mention wrapper and the prefixes [user:] and [discord:] give
    a user target, the prefix [channel:] a channel target, each with the
    marker stripped from the id: on the inputs of the specification, on
    the mention of any non-empty string of digits, and on a prefix
    followed by any non-empty id without white space around it. *)
Theorem parseDiscordTarget_markers options :
  (parseDiscordTarget (lit "<@123>") options
     = Ok (Some (mkTarget user (lit "123") (lit "<@123>")))
   /\ parseDiscordTarget (lit "<@!123>") options
     = Ok (Some (mkTarget user (lit "123") (lit "<@!123>")))
   /\ parseDiscordTarget (lit "user:123") options
     = Ok (Some (mkTarget user (lit "123") (lit "user:123")))
   /\ parseDiscordTarget (lit "discord:123") options
     = Ok (Some (mkTarget user (lit "123") (lit "discord:123")))
   /\ parseDiscordTarget (lit "channel:abc") options
     = Ok (Some (mkTarget channel (lit "abc") (lit "channel:abc"))))
  /\ (forall digits, allDigits digits = true ->
        parseDiscordTarget (lit "<@" ++ digits ++ lit ">") options
          = Ok (Some (mkTarget user digits (lit "<@" ++ digits ++ lit ">")))
        /\ parseDiscordTarget (lit "<@!" ++ digits ++ lit ">") options
          = Ok (Some (mkTarget user digits (lit "<@!" ++ digits ++ lit ">"))))
  /\ (forall id, truthy id = true -> isTrimmed id = true ->
        parseDiscordTarget (lit "user:" ++ id) options
          = Ok (Some (mkTarget user id (lit "user:" ++ id)))
        /\ parseDiscordTarget (lit "discord:" ++ id) options
          = Ok (Some (mkTarget user id (lit "discord:" ++ id)))
        /\ parseDiscordTarget (lit "channel:" ++ id) options
          = Ok (Some (mkTarget channel id (lit "channel:" ++ id)))).
Proof.
  split; [repeat split; vm_compute; reflexivity|]. split.
  - intros digits. apply parseDiscordTarget_mention.
  - intros id. apply parseDiscordTarget_prefixed.
Qed.

Lemma parseDiscordTarget_markers_witness :
  parseDiscordTarget (lit "<@" ++ lit "42" ++ lit ">") noOptions
    = Ok (Some (mkTarget user (lit "42") (lit "<@42>")))
  /\ parseDiscordTarget (lit "channel:" ++ lit "general chat") noOptions
    = Ok (Some (mkTarget channel (lit "general chat")
                         (lit "channel:general chat"))).
Proof.
  split.
  - apply (proj1 (proj2 (parseDiscordTarget_markers noOptions)) (lit "42")).
    reflexivity.
  - apply (proj2 (proj2 (parseDiscordTarget_markers noOptions))
             (lit "general chat")); reflexivity.
Defined.

Lemma startsWith_other_head a p b q s :
  startsWith (a :: p) s = true -> a <> b -> startsWith (b :: q) s = false.
Proof.
  destruct s as [|c s]; [discriminate|]. intros H Hab.
  apply startsWith_head in H. subst c. simpl.
  apply andb_false_iff. left. apply N.eqb_neq. congruence.
Qed.

(** What the parser does on a string whose trimmed form starts with [@]. *)
Lemma parseDiscordTarget_at raw options :
  startsWith (lit "@") (trim raw) = true ->
  parseDiscordTarget raw options =
    let candidate := trim (slice 1 (trim raw)) in
    if allDigits candidate
    then Ok (Some (mkTarget user candidate (trim raw)))
    else Throw (Error invalidMentionMessage).
Proof.
  intros H. unfold parseDiscordTarget, mentionMatch.
  assert (Ht : truthy (trim raw) = true)
    by (destruct (trim raw); [discriminate | reflexivity]).
  rewrite Ht, H. revert H. eval_lits. intros H.
  rewrite (startsWith_other_head _ _ 60 [64] _ H) by discriminate.
  rewrite (startsWith_other_head _ _ 117 [115; 101; 114; 58] _ H)
    by discriminate.
  rewrite (startsWith_other_head _ _ 99 [104; 97; 110; 110; 101; 108; 58] _ H)
    by discriminate.
  rewrite (startsWith_other_head _ _ 100 [105; 115; 99; 111; 114; 100; 58] _ H)
    by discriminate.
  cbn [negb]. unfold ensureTargetId, buildMessagingTarget, allDigits, bind.
  destruct (truthy (trim (slice 1 (trim raw)))) eqn:E1;
    cbn [andb]; [|reflexivity].
  destruct (forallb isDigit (trim (slice 1 (trim raw))));
    [now rewrite E1 | reflexivity].
Qed.

(** C7, as the code has it. When the trimmed input starts with [@], the
    candidate id is what follows the [@], trimmed. If the candidate is a
    non-empty string of digits the parser returns the user target with
    that id; otherwise it throws the error whose message names
    [user:<id>] and the [<@id>] mention. A remainder that is itself a
    non-empty string of digits is its own candidate. *)
Theorem parseDiscordTarget_at_sigil raw options :
  startsWith (lit "@") (trim raw) = true ->
  let remainder := slice 1 (trim raw) in
  (allDigits remainder = true ->
   parseDiscordTarget raw options
     = Ok (Some (mkTarget user remainder (trim raw))))
  /\ (allDigits (trim remainder) = true ->
      parseDiscordTarget raw options
        = Ok (Some (mkTarget user (trim remainder) (trim raw))))
  /\ (allDigits (trim remainder) = false ->
      parseDiscordTarget raw options = Throw (Error invalidMentionMessage))
  /\ includes (lit "user:<id>") invalidMentionMessage = true
  /\ includes (lit "<@id>") invalidMentionMessage = true.
Proof.
  intros H remainder. rewrite (parseDiscordTarget_at raw options H).
  cbv zeta. fold remainder. repeat split.
  - intros Hd. rewrite (allDigits_trim remainder Hd). now rewrite Hd.
  - intros Hd. now rewrite Hd.
  - intros Hd. now rewrite Hd.
Qed.

Lemma parseDiscordTarget_at_sigil_witness :
  startsWith (lit "@") (trim (lit "@123")) = true
  /\ parseDiscordTarget (lit "@123") noOptions
     = Ok (Some (mkTarget user (lit "123") (lit "@123")))
  /\ parseDiscordTarget (lit "@abc") noOptions
     = Throw (Error invalidMentionMessage).
Proof.
  split; [reflexivity|]. split.
  - apply (parseDiscordTarget_at_sigil (lit "@123") noOptions); reflexivity.
  - apply (parseDiscordTarget_at_sigil (lit "@abc") noOptions); reflexivity.
Defined.

(** C7 as stated fails: in [@ 123] what follows the [@] is not a string
    of digits, since it starts with a space, and yet the parser does not
    throw: it trims the remainder and returns the user target 123. *)
Lemma parseDiscordTarget_at_space_digits :
  startsWith (lit "@") (trim (lit "@ 123")) = true
  /\ allDigits (slice 1 (trim (lit "@ 123"))) = false
  /\ parseDiscordTarget (lit "@ 123") noOptions
     = Ok (Some (mkTarget user (lit "123") (lit "@ 123")))
  /\ parseDiscordTarget (lit "@ 123") noOptions
     <> Throw (Error invalidMentionMessage).
Proof. repeat split; try reflexivity. vm_compute. discriminate. Qed.

(** C10. Each of the prefixes [user:], [channel:] and [discord:],
    followed by white space only or by nothing, parses to [undefined]:
    the parser neither throws nor builds a target with an empty id. *)
Theorem parseDiscordTarget_bare_prefix prefix ws options :
  In prefix [lit "user:"; lit "channel:"; lit "discord:"] ->
  forallb isWhiteSpace ws = true ->
  parseDiscordTarget (prefix ++ ws) options = Ok None.
Proof.
  intros Hin Hws. unfold parseDiscordTarget.
  destruct Hin as [<-|[<-|[<-|[]]]];
    (rewrite trim_app_whitespace; [reflexivity | discriminate | reflexivity | exact Hws]).
Qed.

Lemma parseDiscordTarget_bare_prefix_witness :
  parseDiscordTarget (lit "user:" ++ lit "  ") noOptions = Ok None
  /\ parseDiscordTarget (lit "channel:" ++ [9; 160]) noOptions = Ok None
  /\ parseDiscordTarget (lit "discord:" ++ []) noOptions = Ok None.
Proof.
  split; [|split];
    apply parseDiscordTarget_bare_prefix; (simpl; tauto) || reflexivity.
Defined.




(** ** The [raw] field *)

Lemma buildMessagingTarget_raw kind id raw t :
  (t' <- buildMessagingTarget kind id raw ;; Ok (Some t')) = Ok (Some t) ->
  target_raw t = raw.
Proof.
  unfold buildMessagingTarget, bind. destruct (truthy id); [|discriminate].
  intros H. now inversion H.
Qed.

Lemma parseDiscordTarget_raw raw options t :
  parseDiscordTarget raw options = Ok (Some t) -> target_raw t = trim raw.
Proof.
  unfold parseDiscordTarget.
  destruct (negb (truthy (trim raw))); [discriminate|].
  destruct (mentionMatch (trim raw)); [apply buildMessagingTarget_raw|].
  repeat match goal with
  | |- context [if startsWith ?p ?s then _ else _] =>
      destruct (startsWith p s)
  | |- context [if truthy ?s then _ else _] =>
      destruct (truthy s); [apply buildMessagingTarget_raw | discriminate]
  end.
  - unfold ensureTargetId.
    destruct (allDigits (trim (slice 1 (trim raw)))); [|discriminate].
    apply buildMessagingTarget_raw.
  - destruct (allDigits (trim raw)); [|apply buildMessagingTarget_raw].
    destruct (defaultKind options); [apply buildMessagingTarget_raw|].
    discriminate.
Qed.

Lemma parseDiscordTarget_trim raw options :
  parseDiscordTarget (trim raw) options = parseDiscordTarget raw options.
Proof. unfold parseDiscordTarget. now rewrite trim_idempotent. Qed.

(** ** The disambiguator and the resolver *)

Lemma endsWithDigit_snoc s c : endsWithDigit (s ++ [c]) = isDigit c.
Proof. unfold endsWithDigit. now rewrite rev_app_distr. Qed.

(** A mention ends with [>], so a string ending with a digit is none. *)
Lemma mentionMatch_endsWithDigit s :
  endsWithDigit s = true -> mentionMatch s = None.
Proof.
  intros Hd. unfold mentionMatch.
  destruct (startsWith (lit "<@") s) eqn:Hs; [|reflexivity].
  apply startsWith_split in Hs.
  change (List.length (lit "<@")) with 2%nat in Hs.
  set (r := if startsWith (lit "!") (slice 2 s)
            then slice 1 (slice 2 s) else slice 2 s).
  destruct (truthy (takeWhile isDigit r)
            && str_eqb (dropWhile isDigit r) (lit ">")) eqn:E; [|reflexivity].
  exfalso. apply andb_prop in E as [_ E]. apply str_eqb_eq in E.
  assert (Hr : exists pre, s = pre ++ r).
  { subst r. destruct (startsWith (lit "!") (slice 2 s)) eqn:Hb.
    - apply startsWith_split in Hb.
      change (List.length (lit "!")) with 1%nat in Hb.
      exists (lit "<@" ++ lit "!").
      rewrite <- app_assoc. now rewrite <- Hb.
    - now exists (lit "<@"). }
  destruct Hr as [pre Hr].
  rewrite <- (takeWhile_dropWhile isDigit r), E, app_assoc in Hr.
  rewrite Hr in Hd. change (lit ">") with [62] in Hd.
  rewrite endsWithDigit_snoc in Hd. discriminate.
Qed.

Lemma parseDiscordTarget_truthy raw options t :
  parseDiscordTarget raw options = Ok (Some t) -> truthy (trim raw) = true.
Proof.
  unfold parseDiscordTarget. destruct (truthy (trim raw)); [reflexivity|].
  discriminate.
Qed.

Lemma didNotMatchMessage_content query :
  quotes query (didNotMatchMessage query) = true
  /\ includes (lit "did not match a user") (didNotMatchMessage query) = true
  /\ includes (lit "user:<id>") (didNotMatchMessage query) = true
  /\ includes (lit "<@id>") (didNotMatchMessage query) = true
  /\ includes (lit "channel:<id>") (didNotMatchMessage query) = true.
Proof.
  unfold didNotMatchMessage. split; [apply quotes_intro|].
  repeat split; do 4 apply includes_app_r; reflexivity.
Qed.

Lemma multipleMatchedMessage_content query :
  quotes query (multipleMatchedMessage query) = true
  /\ includes (lit "Multiple Discord users matched")
              (multipleMatchedMessage query) = true
  /\ includes (lit "user:<id>") (multipleMatchedMessage query) = true
  /\ includes (lit "<@id>") (multipleMatchedMessage query) = true.
Proof.
  unfold multipleMatchedMessage. split; [|split].
  - apply quotes_intro.
  - apply includes_app_l with (s := lit "Multiple Discord users matched ").
    reflexivity.
  - split; do 4 apply includes_app_r; reflexivity.
Qed.

Section ResolverProperties.

Variable toLowerCase : jsstring -> jsstring.
Variable DirectoryConfigParams : Type.

(** The disambiguator never returns the empty string. *)
Lemma selectDiscordUserMatch_truthy query entries id :
  selectDiscordUserMatch toLowerCase query entries = Some id ->
  truthy id = true.
Proof.
  unfold selectDiscordUserMatch.
  destruct (filter isUserEntry entries) as [|u users]; [discriminate|].
  match goal with
  | |- match ?sel with _ => _ end = _ -> _ => destruct sel as [e|]
  end; [|discriminate].
  destruct (entry_id e) as [i|]; [|discriminate].
  destruct (truthy i); [|discriminate].
  destruct (truthy (trim (stripUserPrefixIgnoreCase i))) eqn:E;
    [|discriminate].
  intros H. inversion H. now subst.
Qed.

(** C2. When the direct parse gives a target that is not a channel and
    the trimmed input is not a likely username, the resolver returns that
    target at once: it makes no directory query, and its result is the
    same against every directory. The input [user:9] is such a case. *)
Theorem resolveDiscordTarget_explicit_bypass
    raw (options : DirectoryConfigParams) parseOptions t :
  parseDiscordTarget raw parseOptions = Ok (Some t) ->
  target_kind t <> channel ->
  isLikelyUsername (trim raw) = false ->
  resolveDiscordTarget toLowerCase raw options parseOptions
    = Return (Ok (Some t))
  /\ directoryCalls
       (resolveDiscordTarget toLowerCase raw options parseOptions) = 0%nat
  /\ forall directory :
       DirectoryConfigParams -> jsstring -> N -> result (list DirectoryEntry),
       run directory (resolveDiscordTarget toLowerCase raw options parseOptions)
         = Ok (Some t).
Proof.
  intros Hp Hk Hl.
  assert (E : resolveDiscordTarget toLowerCase raw options parseOptions
              = Return (Ok (Some t))).
  { unfold resolveDiscordTarget, safeParseDiscordTarget.
    rewrite (parseDiscordTarget_truthy _ _ _ Hp), parseDiscordTarget_trim.
    rewrite Hp, Hl. cbn [negb andb].
    destruct (target_kind t); [reflexivity | congruence]. }
  rewrite E. repeat split.
Qed.

(** C9, as the code has it. When the trimmed input starts with none of
    [user:], [channel:], [discord:] and [@], ends with a decimal digit and
    is not made of digits only, it is not a likely username, the resolver
    makes no directory query and returns the direct parse: the channel
    target whose id is the trimmed input. *)
Theorem resolveDiscordTarget_trailing_digit
    raw (options : DirectoryConfigParams) parseOptions :
  let trimmed := trim raw in
  startsWith (lit "user:") trimmed = false ->
  startsWith (lit "channel:") trimmed = false ->
  startsWith (lit "discord:") trimmed = false ->
  startsWith (lit "@") trimmed = false ->
  endsWithDigit trimmed = true ->
  allDigits trimmed = false ->
  isLikelyUsername trimmed = false
  /\ resolveDiscordTarget toLowerCase raw options parseOptions
     = Return (Ok (Some (mkTarget channel trimmed trimmed)))
  /\ directoryCalls
       (resolveDiscordTarget toLowerCase raw options parseOptions) = 0%nat.
Proof.
  intros trimmed Hu Hc Hd Ha He Hn.
  assert (Hm : mentionMatch trimmed = None)
    by now apply mentionMatch_endsWithDigit.
  assert (Ht : truthy trimmed = true).
  { destruct trimmed; [discriminate | reflexivity]. }
  assert (Hl : isLikelyUsername trimmed = false).
  { unfold isLikelyUsername. now rewrite He, !orb_true_r. }
  assert (Hp : parseDiscordTarget trimmed parseOptions
               = Ok (Some (mkTarget channel trimmed trimmed))).
  { unfold parseDiscordTarget. subst trimmed. rewrite trim_idempotent.
    rewrite Ht, Hm, Hu, Hc, Hd, Ha, Hn. cbn [negb].
    unfold buildMessagingTarget. now rewrite Ht. }
  assert (E : resolveDiscordTarget toLowerCase raw options parseOptions
              = Return (Ok (Some (mkTarget channel trimmed trimmed)))).
  { unfold resolveDiscordTarget, safeParseDiscordTarget, isExplicitUserLookup.
    fold trimmed. now rewrite Ht, Hp, Hl, Hm, Hu, Hd, Ha, Hn. }
  split; [exact Hl|]. rewrite E. split; reflexivity.
Qed.

(** C4. When the resolver queries the directory, it asks for the trimmed
    input with a limit of 5, and on the entries it gets: an id selected by
    the disambiguator gives the user target with that id; no selection
    among no entries throws the error that the query did not match a user,
    no selection among some entries the error that multiple users matched.
    The first message quotes the query and names [user:<id>], [<@id>] and
    [channel:<id>]; the second quotes it and names [user:<id>] and
    [<@id>]. *)
Theorem resolveDiscordTarget_lookup
    raw (options : DirectoryConfigParams) parseOptions params query limit k :
  resolveDiscordTarget toLowerCase raw options parseOptions
    = Await params query limit k ->
  params = options /\ query = trim raw /\ limit = 5
  /\ (forall entries,
        match selectDiscordUserMatch toLowerCase query entries with
        | Some id => k entries = Ok (Some (mkTarget user id query))
        | None =>
            match entries with
            | [] => k entries = Throw (Error (didNotMatchMessage query))
            | _ :: _ =>
                k entries = Throw (Error (multipleMatchedMessage query))
            end
        end)
  /\ (quotes query (didNotMatchMessage query) = true
      /\ includes (lit "did not match a user") (didNotMatchMessage query) = true
      /\ includes (lit "user:<id>") (didNotMatchMessage query) = true
      /\ includes (lit "<@id>") (didNotMatchMessage query) = true
      /\ includes (lit "channel:<id>") (didNotMatchMessage query) = true)
  /\ (quotes query (multipleMatchedMessage query) = true
      /\ includes (lit "Multiple Discord users matched")
                  (multipleMatchedMessage query) = true
      /\ includes (lit "user:<id>") (multipleMatchedMessage query) = true
      /\ includes (lit "<@id>") (multipleMatchedMessage query) = true).
Proof.
  intros H. unfold resolveDiscordTarget in H. cbv zeta in H.
  repeat match type of H with
  | (if ?b then _ else _) = _ => destruct b; [discriminate|]
  end.
  inversion H; subst. clear H.
  split; [reflexivity|]. split; [reflexivity|]. split; [reflexivity|].
  split; [|split; [apply didNotMatchMessage_content
                  | apply multipleMatchedMessage_content]].
  intros entries.
  destruct (selectDiscordUserMatch toLowerCase (trim raw) entries)
    as [id|] eqn:E; cbn [nonEmpty].
  - pose proof (selectDiscordUserMatch_truthy _ _ _ E) as Ht.
    rewrite Ht. unfold buildMessagingTarget. now rewrite Ht.
  - now destruct entries.
Qed.

Lemma safeParseDiscordTarget_raw input parseOptions t :
  safeParseDiscordTarget input parseOptions = Some t ->
  target_raw t = trim input.
Proof.
  unfold safeParseDiscordTarget.
  destruct (parseDiscordTarget input parseOptions) as [r|] eqn:E;
    [|discriminate].
  intros ->. now apply parseDiscordTarget_raw in E.
Qed.

(** C5, as the code has it. The [raw] field of a target that the parser
    or the resolver returns is the trimmed input: the input without its
    leading and trailing white space, and for a target found through the
    directory not the entry's name or id. *)
Theorem target_raw_is_trimmed_input
    raw (options : DirectoryConfigParams) parseOptions t :
  (parseDiscordTarget raw parseOptions = Ok (Some t) ->
   target_raw t = trim raw)
  /\ (forall directory :
        DirectoryConfigParams -> jsstring -> N -> result (list DirectoryEntry),
        run directory
          (resolveDiscordTarget toLowerCase raw options parseOptions)
          = Ok (Some t) ->
        target_raw t = trim raw).
Proof.
  split; [apply parseDiscordTarget_raw|].
  intros directory. unfold resolveDiscordTarget. cbv zeta.
  destruct (negb (truthy (trim raw))); [discriminate|].
  destruct (safeParseDiscordTarget (trim raw) parseOptions) as [d|] eqn:Ed.
  - apply safeParseDiscordTarget_raw in Ed. rewrite trim_idempotent in Ed.
    repeat match goal with
    | |- context [if ?b then _ else _] => destruct b
    end; cbn [run]; try (intros H; inversion H; subst; exact Ed).
    unfold bind at 1.
    destruct (directory options (trim raw) 5) as [entries|]; [|discriminate].
    destruct (nonEmpty _); [apply buildMessagingTarget_raw|].
    destruct entries; discriminate.
  - repeat match goal with
    | |- context [if ?b then _ else _] => destruct b
    end; cbn [run]; try discriminate.
    + rewrite <- (trim_idempotent raw) at 2. apply parseDiscordTarget_raw.
    + unfold bind at 1.
      destruct (directory options (trim raw) 5) as [entries|]; [|discriminate].
      destruct (nonEmpty _); [apply buildMessagingTarget_raw|].
      destruct entries; discriminate.
Qed.

Lemma chosen_entry_id entry :
  match entry_id entry with
  | None => None
  | Some id =>
      if truthy id then
        let resolved := trim (stripUserPrefixIgnoreCase id) in
        if truthy resolved then Some resolved else None
      else None
  end = resolvedId entry.
Proof.
  unfold resolvedId. now destruct (entry_id entry) as [[|c id]|].
Qed.

(** C1, as the code has it. The candidates are the entries of kind
    [user] with a non-empty id, and the exact matches are looked for
    among the candidates. If exactly one candidate is an exact match it is
    chosen; otherwise a sole candidate is chosen; otherwise nothing is
    selected. The result for a chosen entry is its id without a leading
    [user:], trimmed, or nothing when that is empty. *)
Theorem selectDiscordUserMatch_rule query entries :
  let users := filter isUserEntry entries in
  let exactMatches :=
    filter (isExactMatch toLowerCase (toLowerCase (trim query))) users in
  (forall e, exactMatches = [e] ->
     selectDiscordUserMatch toLowerCase query entries = resolvedId e)
  /\ (forall e, List.length exactMatches <> 1%nat -> users = [e] ->
       selectDiscordUserMatch toLowerCase query entries = resolvedId e)
  /\ (List.length exactMatches <> 1%nat -> List.length users <> 1%nat ->
       selectDiscordUserMatch toLowerCase query entries = None).
Proof.
  intros users exactMatches. unfold selectDiscordUserMatch.
  fold users. fold exactMatches.
  assert (Hnil : users = [] -> exactMatches = [])
    by (intros E; subst exactMatches; now rewrite E).
  clearbody exactMatches. clearbody users.
  split; [|split].
  - intros e He. destruct users as [|u us].
    + rewrite Hnil in He by reflexivity. discriminate.
    + rewrite He. apply chosen_entry_id.
  - intros e Hl ->.
    destruct exactMatches as [|x [|y l]];
      [apply chosen_entry_id | simpl in Hl; congruence | apply chosen_entry_id].
  - intros Hl Hu.
    destruct users as [|u [|v us]];
      [reflexivity | simpl in Hu; congruence |].
    destruct exactMatches as [|x [|y l]];
      [reflexivity | simpl in Hl; congruence | reflexivity].
Qed.

End ResolverProperties.

(** ** The statements on inputs of the specification *)

Lemma resolveDiscordTarget_explicit_bypass_witness :
  parseDiscordTarget (lit "user:9") noOptions
    = Ok (Some (mkTarget user (lit "9") (lit "user:9")))
  /\ resolveDiscordTarget asciiToLowerCase (lit "user:9") tt noOptions
     = Return (Ok (Some (mkTarget user (lit "9") (lit "user:9"))))
  /\ directoryCalls
       (resolveDiscordTarget asciiToLowerCase (lit "user:9") tt noOptions)
     = 0%nat.
Proof.
  split; [reflexivity|].
  pose proof (resolveDiscordTarget_explicit_bypass asciiToLowerCase unit
                (lit "user:9") tt noOptions
                (mkTarget user (lit "9") (lit "user:9"))) as H.
  destruct H as [H1 [H2 _]];
    [reflexivity | discriminate | reflexivity |].
  split; [exact H1 | exact H2].
Defined.

Lemma resolveDiscordTarget_trailing_digit_witness :
  endsWithDigit (trim (lit "john2")) = true
  /\ allDigits (trim (lit "john2")) = false
  /\ isLikelyUsername (trim (lit "john2")) = false
  /\ resolveDiscordTarget asciiToLowerCase (lit "john2") tt noOptions
     = Return (Ok (Some (mkTarget channel (lit "john2") (lit "john2")))).
Proof.
  split; [reflexivity|]. split; [reflexivity|].
  pose proof (resolveDiscordTarget_trailing_digit asciiToLowerCase unit
                (lit "john2") tt noOptions) as H.
  destruct H as [H1 [H2 _]]; try reflexivity.
  split; [exact H1 | exact H2].
Defined.

(** C9 as stated fails on a string of digits: [123] starts with none of
    the markers and ends with a digit, and is indeed no likely username,
    but its direct parse is not a channel target: without a default kind
    the resolver rethrows the ambiguity error of the parser. *)
Lemma resolveDiscordTarget_digits_not_channel :
  startsWith (lit "user:") (lit "123") = false
  /\ startsWith (lit "channel:") (lit "123") = false
  /\ startsWith (lit "discord:") (lit "123") = false
  /\ startsWith (lit "@") (lit "123") = false
  /\ mentionMatch (lit "123") = None
  /\ endsWithDigit (lit "123") = true
  /\ isLikelyUsername (lit "123") = false
  /\ resolveDiscordTarget asciiToLowerCase (lit "123") tt noOptions
     = Return (Throw (Error (ambiguousRecipientMessage (lit "123"))))
  /\ resolveDiscordTarget asciiToLowerCase (lit "123") tt noOptions
     <> Return (Ok (Some (mkTarget channel (lit "123") (lit "123")))).
Proof. repeat split; try reflexivity. vm_compute. discriminate. Qed.

Lemma resolveDiscordTarget_lookup_witness :
  exists k,
    resolveDiscordTarget asciiToLowerCase (lit "john.doe") tt noOptions
      = Await tt (lit "john.doe") 5 k
    /\ k [] = Throw (Error (didNotMatchMessage (lit "john.doe")))
    /\ k [mkEntry (Some (lit "user")) (Some (lit "5")) None (Some (lit "@bob"))]
       = Ok (Some (mkTarget user (lit "5") (lit "john.doe")))
    /\ k [mkEntry (Some (lit "user")) (Some (lit "5")) None (Some (lit "@bob"));
          mkEntry (Some (lit "user")) (Some (lit "6")) None (Some (lit "@bo"))]
       = Throw (Error (multipleMatchedMessage (lit "john.doe"))).
Proof.
  eexists. split; [reflexivity|].
  pose proof (resolveDiscordTarget_lookup asciiToLowerCase unit
                (lit "john.doe") tt noOptions tt _ 5 _ eq_refl)
    as [_ [_ [_ [H _]]]].
  split; [exact (H []) | split].
  - exact (H [mkEntry (Some (lit "user")) (Some (lit "5")) None
                      (Some (lit "@bob"))]).
  - exact (H [mkEntry (Some (lit "user")) (Some (lit "5")) None
                      (Some (lit "@bob"));
              mkEntry (Some (lit "user")) (Some (lit "6")) None
                      (Some (lit "@bo"))]).
Defined.

Lemma target_raw_is_trimmed_input_witness :
  parseDiscordTarget (lit " user:5 ") noOptions
    = Ok (Some (mkTarget user (lit "5") (lit "user:5")))
  /\ target_raw (mkTarget user (lit "5") (lit "user:5")) = trim (lit " user:5 ")
  /\ target_raw (mkTarget user (lit "7") (lit "john.doe"))
     = trim (lit " john.doe ").
Proof.
  split; [reflexivity|]. split.
  - apply (target_raw_is_trimmed_input asciiToLowerCase unit
             (lit " user:5 ") tt noOptions). reflexivity.
  - apply (proj2 (target_raw_is_trimmed_input asciiToLowerCase unit
                    (lit " john.doe ") tt noOptions
                    (mkTarget user (lit "7") (lit "john.doe")))
             (fun _ _ _ =>
                Ok [mkEntry (Some (lit "user")) (Some (lit "user:7"))
                            (Some (lit "John Doe")) None])).
    reflexivity.
Defined.

(** C5 as stated fails on an input with white space around it: the
    target parsed from [ user:5] has the raw field [user:5], which is not
    the string passed in. *)
Lemma target_raw_not_original_input :
  parseDiscordTarget (lit " user:5") noOptions
    = Ok (Some (mkTarget user (lit "5") (lit "user:5")))
  /\ target_raw (mkTarget user (lit "5") (lit "user:5")) <> lit " user:5".
Proof. split; [reflexivity | discriminate]. Qed.

Lemma selectDiscordUserMatch_rule_witness :
  selectDiscordUserMatch asciiToLowerCase (lit "bob")
    [mkEntry (Some (lit "user")) (Some (lit "5")) None (Some (lit "@bob"));
     mkEntry (Some (lit "user")) (Some (lit "1")) (Some (lit "Alice")) None]
    = Some (lit "5")
  /\ selectDiscordUserMatch asciiToLowerCase (lit "xyz")
       [mkEntry (Some (lit "user")) (Some (lit "5")) None (Some (lit "@bob"))]
     = Some (lit "5")
  /\ selectDiscordUserMatch asciiToLowerCase (lit "alice")
       [mkEntry (Some (lit "user")) (Some (lit "1")) (Some (lit "Alice")) None;
        mkEntry (Some (lit "user")) (Some (lit "2")) (Some (lit "alice")) None]
     = None.
Proof.
  split; [|split].
  - apply (proj1 (selectDiscordUserMatch_rule asciiToLowerCase (lit "bob") _)
             (mkEntry (Some (lit "user")) (Some (lit "5")) None
                      (Some (lit "@bob")))).
    reflexivity.
  - apply (proj1 (proj2 (selectDiscordUserMatch_rule asciiToLowerCase
                           (lit "xyz") _))
             (mkEntry (Some (lit "user")) (Some (lit "5")) None
                      (Some (lit "@bob")))).
    + vm_compute. discriminate.
    + reflexivity.
  - apply (proj2 (proj2 (selectDiscordUserMatch_rule asciiToLowerCase
                           (lit "alice") _))).
    + vm_compute. discriminate.
    + vm_compute. discriminate.
Defined.

(** C1 as stated fails when an entry passed in is not a candidate. Here
    one entry is passed in, and its name is the query, so that both
    conditions of the statement hold; but the entry is a channel, and the
    disambiguator selects nothing. *)
Lemma selectDiscordUserMatch_sole_entry_not_user :
  let entries :=
    [mkEntry (Some (lit "channel")) (Some (lit "7")) (Some (lit "general"))
             None] in
  ~ ((exists id,
        selectDiscordUserMatch asciiToLowerCase (lit "general") entries
          = Some id)
     <-> (List.length
            (filter (isExactMatch asciiToLowerCase
                       (asciiToLowerCase (trim (lit "general")))) entries)
          = 1%nat
          \/ List.length entries = 1%nat)).
Proof.
  intros entries [_ H]. destruct H as [id H]; [now right|]. discriminate H.
Qed.

(** * Further properties of the code *)

(** ** White space around the input *)

Lemma dropWhile_all p (s : jsstring) :
  forallb p s = true -> dropWhile p s = [].
Proof.
  intros H. rewrite <- (app_nil_r s). now rewrite dropWhile_app_all.
Qed.

Lemma dropWhile_app_r p (s w : jsstring) :
  dropWhile p (s ++ w) =
    if truthy (dropWhile p s) then dropWhile p s ++ w else dropWhile p w.
Proof.
  induction s as [|c s IH]; simpl; [reflexivity|].
  destruct (p c); [exact IH | reflexivity].
Qed.

Lemma trim_all_whitespace s : forallb isWhiteSpace s = true -> trim s = [].
Proof.
  intros H. unfold trim, trimEnd, trimStart.
  now rewrite (dropWhile_all _ s H).
Qed.

Lemma trim_app_whitespace_l w s :
  forallb isWhiteSpace w = true -> trim (w ++ s) = trim s.
Proof.
  intros H. unfold trim, trimStart.
  now rewrite (dropWhile_app_all _ w s H).
Qed.

Lemma trim_app_whitespace_r s w :
  forallb isWhiteSpace w = true -> trim (s ++ w) = trim s.
Proof.
  intros H. unfold trim, trimStart, trimEnd.
  rewrite (dropWhile_app_r _ s w).
  destruct (truthy (dropWhile isWhiteSpace s)) eqn:E.
  - rewrite rev_app_distr.
    rewrite (dropWhile_app_all _ (rev w)); [reflexivity|].
    now rewrite forallb_rev.
  - rewrite (dropWhile_all _ w H).
    now destruct (dropWhile isWhiteSpace s).
Qed.

Lemma trim_surrounded w1 s w2 :
  forallb isWhiteSpace w1 = true -> forallb isWhiteSpace w2 = true ->
  trim (w1 ++ s ++ w2) = trim s.
Proof.
  intros H1 H2. now rewrite trim_app_whitespace_l, trim_app_whitespace_r.
Qed.

Lemma allDigits_endsWithDigit s : allDigits s = true -> endsWithDigit s = true.
Proof.
  unfold allDigits, endsWithDigit. intros H. apply andb_prop in H as [Ht Hd].
  rewrite <- (forallb_rev isDigit) in Hd.
  destruct (rev s) as [|c r] eqn:E.
  - apply (f_equal (@rev N)) in E. rewrite rev_involutive in E.
    subst s. discriminate.
  - simpl in Hd. now apply andb_prop in Hd.
Qed.

Lemma startsWith_not_allDigits a p s :
  isDigit a = false -> startsWith (a :: p) s = true -> allDigits s = false.
Proof.
  intros Ha Hs. destruct (allDigits s) eqn:E; [|reflexivity].
  rewrite (startsWith_digit_false a p s Ha E) in Hs. discriminate.
Qed.

(** ** The mention pattern *)

Lemma mentionMatch_inv s digits :
  mentionMatch s = Some digits ->
  allDigits digits = true
  /\ (s = lit "<@" ++ digits ++ lit ">" \/ s = lit "<@!" ++ digits ++ lit ">").
Proof.
  unfold mentionMatch.
  destruct (startsWith (lit "<@") s) eqn:Hs; [|discriminate].
  apply startsWith_split in Hs.
  change (List.length (lit "<@")) with 2%nat in Hs.
  set (r := if startsWith (lit "!") (slice 2 s)
            then slice 1 (slice 2 s) else slice 2 s).
  destruct (truthy (takeWhile isDigit r)
            && str_eqb (dropWhile isDigit r) (lit ">")) eqn:E; [|discriminate].
  intros H. injection H as Hd.
  apply andb_prop in E as [Et E]. apply str_eqb_eq in E.
  assert (Hr : r = digits ++ lit ">").
  { rewrite <- (takeWhile_dropWhile isDigit r) at 1. now rewrite E, Hd. }
  split.
  - unfold allDigits. rewrite <- Hd, Et. apply takeWhile_all.
  - subst r. destruct (startsWith (lit "!") (slice 2 s)) eqn:Hb.
    + right. apply startsWith_split in Hb.
      change (List.length (lit "!")) with 1%nat in Hb.
      rewrite Hs, Hb, Hr. reflexivity.
    + left. now rewrite Hs, Hr.
Qed.

(** ** The parser, rule by rule *)

(** [buildMessagingTarget] never fails in the parser: every call is
    guarded by a test that the id is not empty. *)
Lemma parseDiscordTarget_rules raw options :
  parseDiscordTarget raw options =
    let trimmed := trim raw in
    if truthy trimmed then
      match mentionMatch trimmed with
      | Some digits => Ok (Some (mkTarget user digits trimmed))
      | None =>
      if startsWith (lit "user:") trimmed then
        if truthy (trim (slice 5 trimmed))
        then Ok (Some (mkTarget user (trim (slice 5 trimmed)) trimmed))
        else Ok None
      else if startsWith (lit "channel:") trimmed then
        if truthy (trim (slice 8 trimmed))
        then Ok (Some (mkTarget channel (trim (slice 8 trimmed)) trimmed))
        else Ok None
      else if startsWith (lit "discord:") trimmed then
        if truthy (trim (slice 8 trimmed))
        then Ok (Some (mkTarget user (trim (slice 8 trimmed)) trimmed))
        else Ok None
      else if startsWith (lit "@") trimmed then
        if allDigits (trim (slice 1 trimmed))
        then Ok (Some (mkTarget user (trim (slice 1 trimmed)) trimmed))
        else Throw (Error invalidMentionMessage)
      else if allDigits trimmed then
        match defaultKind options with
        | Some k => Ok (Some (mkTarget k trimmed trimmed))
        | None =>
            Throw (Error (match ambiguousMessage options with
                          | Some m => m
                          | None => ambiguousRecipientMessage trimmed
                          end))
        end
      else Ok (Some (mkTarget channel trimmed trimmed))
      end
    else Ok None.
Proof.
  unfold parseDiscordTarget. cbv zeta.
  destruct (truthy (trim raw)) eqn:Ht; cbn [negb]; [|reflexivity].
  destruct (mentionMatch (trim raw)) as [digits|] eqn:Hm.
  { apply mentionMatch_inv in Hm as [Hd _]. unfold allDigits in Hd.
    apply andb_prop in Hd as [Hd _].
    unfold buildMessagingTarget. now rewrite Hd. }
  destruct (startsWith (lit "user:") (trim raw)).
  { destruct (truthy (trim (slice 5 (trim raw)))) eqn:E; [|reflexivity].
    unfold buildMessagingTarget. now rewrite E. }
  destruct (startsWith (lit "channel:") (trim raw)).
  { destruct (truthy (trim (slice 8 (trim raw)))) eqn:E; [|reflexivity].
    unfold buildMessagingTarget. now rewrite E. }
  destruct (startsWith (lit "discord:") (trim raw)).
  { destruct (truthy (trim (slice 8 (trim raw)))) eqn:E; [|reflexivity].
    unfold buildMessagingTarget. now rewrite E. }
  destruct (startsWith (lit "@") (trim raw)).
  { unfold ensureTargetId.
    destruct (allDigits (trim (slice 1 (trim raw)))) eqn:E; [|reflexivity].
    unfold allDigits in E. apply andb_prop in E as [E _].
    unfold buildMessagingTarget, bind. now rewrite E. }
  unfold buildMessagingTarget. rewrite Ht.
  destruct (allDigits (trim raw)); [|reflexivity].
  now destruct (defaultKind options).
Qed.

(** The rules of the parser, one goal each, in the order of the source:
    mention, [user:], [channel:], [discord:], [@], digits, anything else,
    and the empty string last. *)
Ltac parse_rules raw :=
  rewrite (parseDiscordTarget_rules raw); cbv zeta;
  destruct (truthy (trim raw)) eqn:Htruthy;
  [ destruct (mentionMatch (trim raw)) as [digits|] eqn:Hmention;
    [ | destruct (startsWith (lit "user:") (trim raw)) eqn:Huser;
        [ | destruct (startsWith (lit "channel:") (trim raw)) eqn:Hchannel;
            [ | destruct (startsWith (lit "discord:") (trim raw)) eqn:Hdiscord;
                [ | destruct (startsWith (lit "@") (trim raw)) eqn:Hat;
                    [ | destruct (allDigits (trim raw)) eqn:Hdigits ] ] ] ] ]
  | ].

(** What follows from the first code unit of a string. *)
Lemma channel_prefix_rules s options :
  startsWith (lit "channel:") s = true ->
  mentionMatch s = None
  /\ isExplicitUserLookup s options = false
  /\ isLikelyUsername s = false.
Proof.
  intros H.
  assert (Hl : isLikelyUsername s = false)
    by (unfold isLikelyUsername; now rewrite H, !orb_true_r).
  destruct s as [|c s]; [discriminate|].
  revert H. eval_lits. intros H. apply startsWith_head in H. subst c.
  repeat split. exact Hl.
Qed.

Lemma at_sigil_rules s options :
  startsWith (lit "@") s = true ->
  mentionMatch s = None
  /\ isExplicitUserLookup s options = true
  /\ isLikelyUsername s = false.
Proof.
  destruct s as [|c s]; [discriminate|]. intros H.
  revert H. eval_lits. intros H. apply startsWith_head in H. subst c.
  repeat split.
Qed.

(** X1. A mention is recognised exactly in the strings made of [<@] or
    [<@!], one digit or more, and [>]; the digits are what is captured. *)
Theorem mentionMatch_iff s digits :
  mentionMatch s = Some digits <->
  allDigits digits = true
  /\ (s = lit "<@" ++ digits ++ lit ">" \/ s = lit "<@!" ++ digits ++ lit ">").
Proof.
  split; [apply mentionMatch_inv|].
  intros [Hd [-> | ->]]; now apply mentionMatch_digits_wrapped.
Qed.

Lemma mentionMatch_iff_witness :
  mentionMatch (lit "<@!2024>") = Some (lit "2024")
  /\ mentionMatch (lit "<@12a>") <> Some (lit "12a").
Proof.
  split.
  - apply (proj2 (mentionMatch_iff (lit "<@!2024>") (lit "2024"))).
    split; [reflexivity | right; reflexivity].
  - intros H. apply (proj1 (mentionMatch_iff _ _)) in H as [H _].
    discriminate H.
Defined.

(** X2. The parser throws in two cases only: the trimmed input starts
    with [@] and what follows, trimmed, is not a string of digits (the
    error names [user:<id>] and the mention); or the trimmed input is a
    string of digits and no default kind is given (the ambiguity error).
    In particular it never fails in building a target. *)
Theorem parseDiscordTarget_throws raw options e :
  parseDiscordTarget raw options = Throw e ->
  (startsWith (lit "@") (trim raw) = true
   /\ allDigits (trim (slice 1 (trim raw))) = false
   /\ e = Error invalidMentionMessage)
  \/ (allDigits (trim raw) = true
      /\ defaultKind options = None
      /\ e = Error (match ambiguousMessage options with
                    | Some m => m
                    | None => ambiguousRecipientMessage (trim raw)
                    end)).
Proof.
  parse_rules raw; try discriminate.
  - destruct (truthy (trim (slice 5 (trim raw)))); discriminate.
  - destruct (truthy (trim (slice 8 (trim raw)))); discriminate.
  - destruct (truthy (trim (slice 8 (trim raw)))); discriminate.
  - destruct (allDigits (trim (slice 1 (trim raw)))) eqn:E; [discriminate|].
    intros H. injection H as <-. now left.
  - destruct (defaultKind options) eqn:E; [discriminate|].
    intros H. injection H as <-. now right.
Qed.

Lemma parseDiscordTarget_throws_witness :
  parseDiscordTarget (lit " @bob ") noOptions
    = Throw (Error invalidMentionMessage)
  /\ allDigits (trim (slice 1 (trim (lit " @bob ")))) = false.
Proof.
  split; [reflexivity|].
  destruct (parseDiscordTarget_throws (lit " @bob ") noOptions
              (Error invalidMentionMessage) eq_refl)
    as [[_ [H _]]|[H _]].
  - exact H.
  - discriminate H.
Defined.

(** X3. The options are read on a string of digits only: when the
    trimmed input is not made of digits, the parser gives the same result
    under any two options. *)
Theorem parseDiscordTarget_options_irrelevant raw options options' :
  allDigits (trim raw) = false ->
  parseDiscordTarget raw options = parseDiscordTarget raw options'.
Proof.
  intros H. rewrite (parseDiscordTarget_rules raw options').
  parse_rules raw; try reflexivity. congruence.
Qed.

Lemma parseDiscordTarget_options_irrelevant_witness :
  parseDiscordTarget (lit "general") (mkOptions (Some user) (Some (lit "?")))
  = parseDiscordTarget (lit "general") noOptions.
Proof.
  apply (parseDiscordTarget_options_irrelevant (lit "general")). reflexivity.
Defined.

(** X4. A target of the parser is a user target exactly when the trimmed
    input is an explicit user lookup for the resolver: a mention, a
    [user:] or [discord:] prefix, a leading [@], or digits under the
    default kind [user]. *)
Theorem parseDiscordTarget_user_iff_explicit raw options t :
  parseDiscordTarget raw options = Ok (Some t) ->
  (target_kind t = user <-> isExplicitUserLookup (trim raw) options = true).
Proof.
  unfold isExplicitUserLookup. parse_rules raw; try discriminate.
  - intros H. injection H as <-. now split.
  - destruct (truthy (trim (slice 5 (trim raw)))); [|discriminate].
    intros H. injection H as <-. now split.
  - destruct (channel_prefix_rules _ options Hchannel) as [_ [He _]].
    unfold isExplicitUserLookup in He. rewrite Hmention, Huser in He.
    rewrite He.
    destruct (truthy (trim (slice 8 (trim raw)))); [|discriminate].
    intros H. injection H as <-. split; discriminate.
  - destruct (truthy (trim (slice 8 (trim raw)))); [|discriminate].
    intros H. injection H as <-. now split.
  - destruct (allDigits (trim (slice 1 (trim raw)))); [|discriminate].
    intros H. injection H as <-. now split.
  - destruct (defaultKind options) as [[|]|]; try discriminate;
      intros H; injection H as <-; split; (reflexivity || discriminate).
  - intros H. injection H as <-. split; discriminate.
Qed.

Lemma parseDiscordTarget_user_iff_explicit_witness :
  isExplicitUserLookup (trim (lit " discord:77 ")) noOptions = true
  /\ isExplicitUserLookup (trim (lit "42")) (mkOptions (Some channel) None)
     = false.
Proof.
  split.
  - apply (proj1 (parseDiscordTarget_user_iff_explicit (lit " discord:77 ")
                    noOptions
                    (mkTarget user (lit "77") (lit "discord:77")) eq_refl)).
    reflexivity.
  - pose proof (parseDiscordTarget_user_iff_explicit (lit "42")
                  (mkOptions (Some channel) None)
                  (mkTarget channel (lit "42") (lit "42")) eq_refl) as [_ H].
    destruct (isExplicitUserLookup (trim (lit "42"))
                (mkOptions (Some channel) None)); [|reflexivity].
    discriminate (H eq_refl).
Defined.

(** X5. The two classifications of the resolver exclude each other: an
    explicit user lookup is never a likely username. *)
Theorem isExplicitUserLookup_not_likelyUsername input options :
  isExplicitUserLookup input options = true ->
  isLikelyUsername input = false.
Proof.
  unfold isExplicitUserLookup, isLikelyUsername.
  destruct (mentionMatch input) as [digits|] eqn:Hm.
  { intros _. apply mentionMatch_inv in Hm as [_ [-> | ->]]; reflexivity. }
  destruct (startsWith (lit "user:") input); [reflexivity|].
  destruct (startsWith (lit "discord:") input);
    [intros _; now rewrite !orb_true_r|].
  destruct (startsWith (lit "@") input);
    [intros _; now rewrite !orb_true_r|].
  destruct (allDigits input) eqn:Hd; [|discriminate].
  intros _. now rewrite (allDigits_endsWithDigit input Hd), !orb_true_r.
Qed.

Lemma isExplicitUserLookup_not_likelyUsername_witness :
  isLikelyUsername (lit "31337") = false.
Proof.
  apply (isExplicitUserLookup_not_likelyUsername (lit "31337")
           (mkOptions (Some user) None)).
  reflexivity.
Defined.

(** The id of a target of the parser is not empty and has no white space
    at either end. *)
Lemma parseDiscordTarget_id raw options t :
  parseDiscordTarget raw options = Ok (Some t) ->
  truthy (target_id t) = true /\ isTrimmed (target_id t) = true.
Proof.
  parse_rules raw; try discriminate.
  - apply mentionMatch_inv in Hmention as [Hd _].
    intros H. injection H as <-. simpl. split.
    + unfold allDigits in Hd. now apply andb_prop in Hd.
    + now apply allDigits_isTrimmed.
  - destruct (truthy (trim (slice 5 (trim raw)))) eqn:E; [|discriminate].
    intros H. injection H as <-. simpl. split; [exact E | apply trim_isTrimmed].
  - destruct (truthy (trim (slice 8 (trim raw)))) eqn:E; [|discriminate].
    intros H. injection H as <-. simpl. split; [exact E | apply trim_isTrimmed].
  - destruct (truthy (trim (slice 8 (trim raw)))) eqn:E; [|discriminate].
    intros H. injection H as <-. simpl. split; [exact E | apply trim_isTrimmed].
  - destruct (allDigits (trim (slice 1 (trim raw)))) eqn:E; [|discriminate].
    intros H. injection H as <-. simpl. split.
    + unfold allDigits in E. now apply andb_prop in E.
    + apply trim_isTrimmed.
  - destruct (defaultKind options); [|discriminate].
    intros H. injection H as <-. simpl.
    split; [exact Htruthy | apply trim_isTrimmed].
  - intros H. injection H as <-. simpl.
    split; [exact Htruthy | apply trim_isTrimmed].
Qed.

(** ** The resolver and the parser *)

Lemma Permutation_filter_both {A} (f : A -> bool) (l l' : list A) :
  Permutation l l' -> Permutation (filter f l) (filter f l').
Proof.
  induction 1 as [|x l l' _ IH|x y l|l l' l'' _ IH1 _ IH2]; simpl.
  - constructor.
  - destruct (f x); [now constructor | exact IH].
  - destruct (f x), (f y); try apply Permutation_refl. constructor.
  - now transitivity (filter f l').
Qed.

(** Two permutations of each other are the same singleton, or neither is
    a singleton. *)
Lemma singleton_or_not {A} (l l' : list A) :
  Permutation l l' ->
  match l with [e] => Some e | _ => None end
  = match l' with [e] => Some e | _ => None end.
Proof.
  intros H. pose proof (Permutation_length H) as Hl.
  destruct l as [|a [|b l]].
  - apply Permutation_nil in H. now subst.
  - apply Permutation_length_1_inv in H. now subst.
  - now destruct l' as [|a' [|b' l']].
Qed.

Lemma nonEmpty_some selected s :
  nonEmpty selected = Some s -> selected = Some s /\ truthy s = true.
Proof.
  destruct selected as [x|]; simpl; [|discriminate].
  destruct (truthy x) eqn:E; [|discriminate].
  intros H. injection H as <-. now split.
Qed.

Lemma safeParseDiscordTarget_some input options t :
  safeParseDiscordTarget input options = Some t ->
  parseDiscordTarget input options = Ok (Some t).
Proof.
  unfold safeParseDiscordTarget.
  destruct (parseDiscordTarget input options); [now intros ->|discriminate].
Qed.

Section ResolverCoverage.

Variable toLowerCase : jsstring -> jsstring.
Variable DirectoryConfigParams : Type.

(** X6. Empty and white-space-only input is no target and no error: the
    parser returns [undefined], and the resolver returns [undefined]
    without a directory query. *)
Theorem blank_input_is_undefined
    raw (options : DirectoryConfigParams) parseOptions :
  forallb isWhiteSpace raw = true ->
  parseDiscordTarget raw parseOptions = Ok None
  /\ resolveDiscordTarget toLowerCase raw options parseOptions
     = Return (Ok None).
Proof.
  intros H. unfold parseDiscordTarget, resolveDiscordTarget.
  now rewrite (trim_all_whitespace raw H).
Qed.

(** X7. White space around the input does not count: the parser, the
    channel-id helper and the resolver give on an input with white space
    added before and after it what they give on the input itself. *)
Theorem surrounding_whitespace_ignored
    w1 raw w2 (options : DirectoryConfigParams) parseOptions :
  forallb isWhiteSpace w1 = true -> forallb isWhiteSpace w2 = true ->
  parseDiscordTarget (w1 ++ raw ++ w2) parseOptions
    = parseDiscordTarget raw parseOptions
  /\ resolveDiscordChannelId (w1 ++ raw ++ w2) = resolveDiscordChannelId raw
  /\ resolveDiscordTarget toLowerCase (w1 ++ raw ++ w2) options parseOptions
     = resolveDiscordTarget toLowerCase raw options parseOptions.
Proof.
  intros H1 H2.
  unfold resolveDiscordChannelId, resolveDiscordTarget, parseDiscordTarget.
  now rewrite (trim_surrounded w1 raw w2 H1 H2).
Qed.

(** X8. When the resolver finishes without a directory query, its result
    is the result of the parser on the same input and options, an error
    of the parser included. *)
Theorem resolveDiscordTarget_without_lookup
    raw (options : DirectoryConfigParams) parseOptions r :
  resolveDiscordTarget toLowerCase raw options parseOptions = Return r ->
  r = parseDiscordTarget raw parseOptions.
Proof.
  unfold resolveDiscordTarget, safeParseDiscordTarget. cbv zeta.
  rewrite parseDiscordTarget_trim.
  destruct (truthy (trim raw)) eqn:Ht; cbn [negb].
  - destruct (parseDiscordTarget raw parseOptions) as [[t|]|e] eqn:Hp;
      repeat match goal with
      | |- (if ?b then _ else _) = _ -> _ => destruct b
      end;
      intros H; try discriminate; now injection H as <-.
  - intros H. injection H as <-. unfold parseDiscordTarget. now rewrite Ht.
Qed.

(** A likely username starts with no marker and does not end with a
    digit, so that the parser reaches its last rule on it. *)
Lemma isLikelyUsername_last_rule input options :
  truthy input = true ->
  isLikelyUsername input = true ->
  trim input = input ->
  parseDiscordTarget input options
    = Ok (Some (mkTarget channel input input)).
Proof.
  intros Ht Hl Hi. unfold isLikelyUsername in Hl.
  destruct (startsWith (lit "user:") input) eqn:Hu; [discriminate|].
  destruct (startsWith (lit "channel:") input) eqn:Hc; [discriminate|].
  destruct (startsWith (lit "discord:") input) eqn:Hd; [discriminate|].
  destruct (startsWith (lit "@") input) eqn:Ha; [discriminate|].
  destruct (startsWith (lit "<@") input) eqn:Hm; [discriminate|].
  destruct (endsWithDigit input) eqn:He; [discriminate|].
  assert (Hn : allDigits input = false).
  { destruct (allDigits input) eqn:E; [|reflexivity].
    rewrite (allDigits_endsWithDigit input E) in He. discriminate. }
  rewrite (parseDiscordTarget_rules input). cbv zeta. rewrite Hi, Ht.
  unfold mentionMatch. now rewrite Hm, Hu, Hc, Hd, Ha, Hn.
Qed.

(** X9. A likely username is always looked up, and is never resolved to
    a channel, although the parser makes a channel of it: on a non-empty
    trimmed input that is a likely username the direct parse is the
    channel target whose id is the trimmed input, the resolver makes its
    directory query all the same, and against every directory it ends
    with a user target or with an error. *)
Theorem resolveDiscordTarget_likely_username
    raw (options : DirectoryConfigParams) parseOptions :
  truthy (trim raw) = true ->
  isLikelyUsername (trim raw) = true ->
  parseDiscordTarget raw parseOptions
    = Ok (Some (mkTarget channel (trim raw) (trim raw)))
  /\ safeParseDiscordTarget (trim raw) parseOptions
     = Some (mkTarget channel (trim raw) (trim raw))
  /\ directoryCalls
       (resolveDiscordTarget toLowerCase raw options parseOptions) = 1%nat
  /\ forall directory :
       DirectoryConfigParams -> jsstring -> N -> result (list DirectoryEntry),
       match run directory
               (resolveDiscordTarget toLowerCase raw options parseOptions)
       with
       | Ok (Some t) => target_kind t = user
       | Ok None => False
       | Throw _ => True
       end.
Proof.
  intros Ht Hl.
  assert (Hp : parseDiscordTarget (trim raw) parseOptions
               = Ok (Some (mkTarget channel (trim raw) (trim raw))))
    by (apply isLikelyUsername_last_rule;
        [exact Ht | exact Hl | apply trim_idempotent]).
  split; [now rewrite <- parseDiscordTarget_trim|].
  split; [unfold safeParseDiscordTarget; now rewrite Hp|].
  unfold resolveDiscordTarget. cbv zeta.
  rewrite Ht, Hl, orb_true_r. cbn [negb].
  assert (Hb : match safeParseDiscordTarget (trim raw) parseOptions with
               | Some t => negb (kind_eqb (target_kind t) channel) && false
               | None => false
               end = false)
    by (destruct (safeParseDiscordTarget _ _); [apply andb_false_r | reflexivity]).
  rewrite Hb. split; [reflexivity|].
  intros directory. cbn [run]. unfold bind at 1.
  destruct (directory options (trim raw) 5) as [entries|]; [|exact I].
  destruct (nonEmpty _) as [selected|] eqn:E.
  - apply nonEmpty_some in E as [_ E]. unfold buildMessagingTarget.
    now rewrite E.
  - now destruct entries.
Qed.

(** X10. Digits and the [channel:] prefix never reach the directory:
    when the trimmed input is a string of digits or starts with
    [channel:], the resolver finishes at once with the result of the
    parser, whatever the options. *)
Theorem resolveDiscordTarget_digits_or_channel
    raw (options : DirectoryConfigParams) parseOptions :
  allDigits (trim raw) = true
  \/ startsWith (lit "channel:") (trim raw) = true ->
  resolveDiscordTarget toLowerCase raw options parseOptions
    = Return (parseDiscordTarget raw parseOptions).
Proof.
  intros H. unfold resolveDiscordTarget, safeParseDiscordTarget. cbv zeta.
  rewrite parseDiscordTarget_trim.
  assert (Ht : truthy (trim raw) = true).
  { destruct H as [H|H]; [|now destruct (trim raw)].
    unfold allDigits in H. now apply andb_prop in H. }
  rewrite Ht. cbn [negb]. destruct H as [H|H].
  - assert (Hl : isLikelyUsername (trim raw) = false).
    { unfold isLikelyUsername.
      now rewrite (allDigits_endsWithDigit _ H), !orb_true_r. }
    assert (He : isExplicitUserLookup (trim raw) parseOptions
                 = match defaultKind parseOptions with
                   | Some user => true
                   | _ => false
                   end).
    { unfold isExplicitUserLookup. rewrite (mentionMatch_digits _ H), H.
      eval_lits.
      now rewrite !(startsWith_digit_false _ _ (trim raw)) by (reflexivity || exact H). }
    rewrite Hl, He, <- (parseDiscordTarget_trim raw).
    rewrite (parseDiscordTarget_digits (trim raw) parseOptions H).
    now destruct (defaultKind parseOptions) as [[|]|].
  - destruct (channel_prefix_rules _ parseOptions H) as [Hm [He Hl]].
    rewrite Hl, He. cbn [negb andb orb].
    rewrite (parseDiscordTarget_rules raw). cbv zeta.
    rewrite Ht, Hm, H.
    assert (Hu : startsWith (lit "user:") (trim raw) = false).
    { revert H. eval_lits. intros H.
      now apply (startsWith_other_head _ _ _ _ _ H). }
    rewrite Hu.
    now destruct (truthy (trim (slice 8 (trim raw)))).
Qed.

(** X11. An explicit user form that the parser does not turn into a
    target is looked up as it is: when the trimmed input starts with [@]
    and what follows, trimmed, is not a string of digits, or when it is
    the bare prefix [user:] or [discord:], the resolver does not pass on
    the parser's error or [undefined]; it queries the directory for the
    whole trimmed input, and on no entries throws the error that the
    input did not match a user. *)
Theorem resolveDiscordTarget_unparsed_explicit
    raw (options : DirectoryConfigParams) parseOptions :
  (startsWith (lit "@") (trim raw) = true
   /\ allDigits (trim (slice 1 (trim raw))) = false)
  \/ trim raw = lit "user:" \/ trim raw = lit "discord:" ->
  exists k,
    resolveDiscordTarget toLowerCase raw options parseOptions
      = Await options (trim raw) 5 k
    /\ k [] = Throw (Error (didNotMatchMessage (trim raw))).
Proof.
  intros H. unfold resolveDiscordTarget, safeParseDiscordTarget. cbv zeta.
  rewrite parseDiscordTarget_trim.
  destruct H as [[Ha Hd]|[H|H]].
  - rewrite (parseDiscordTarget_at raw parseOptions Ha). cbv zeta.
    rewrite Hd.
    destruct (at_sigil_rules _ parseOptions Ha) as [_ [He Hl]].
    rewrite He, Hl.
    assert (Ht : truthy (trim raw) = true) by now destruct (trim raw).
    rewrite Ht. cbn [negb orb]. eexists. split; reflexivity.
  - unfold parseDiscordTarget. rewrite H. eexists. split; reflexivity.
  - unfold parseDiscordTarget. rewrite H. eexists. split; reflexivity.
Qed.

(** The id the disambiguator returns is not empty, has no white space at
    either end, and is the resolved id of a candidate among the entries. *)
Lemma selectDiscordUserMatch_from_entry query entries id :
  selectDiscordUserMatch toLowerCase query entries = Some id ->
  truthy id = true /\ isTrimmed id = true
  /\ exists entry,
       In entry entries /\ isUserEntry entry = true
       /\ resolvedId entry = Some id.
Proof.
  unfold selectDiscordUserMatch.
  set (users := filter isUserEntry entries).
  set (exact := filter _ users).
  assert (Hin : forall e,
            match exact with
            | [e0] => Some e0
            | _ => match users with [e0] => Some e0 | _ => None end
            end = Some e -> In e users).
  { intros e.
    assert (He : forall x, In x exact -> In x users)
      by (intros x Hx; now apply filter_In in Hx).
    destruct exact as [|x [|y l]].
    - destruct users as [|u [|v us]]; try discriminate.
      intros H. injection H as <-. now left.
    - intros H. injection H as <-. apply He. now left.
    - destruct users as [|u [|v us]]; try discriminate.
      intros H. injection H as <-. now left. }
  clearbody exact.
  destruct users as [|u us] eqn:Eu; [discriminate|]. rewrite <- Eu in *.
  match goal with
  | |- match ?sel with _ => _ end = _ -> _ => destruct sel as [e|] eqn:Es
  end; [|discriminate].
  specialize (Hin e eq_refl). apply filter_In in Hin as [Hin Hu].
  intros H0.
  assert (H : resolvedId e = Some id)
    by (rewrite <- (chosen_entry_id e); exact H0).
  pose proof H as H'. unfold resolvedId in H'.
  destruct (entry_id e) as [i|]; [|discriminate].
  apply nonEmpty_some in H' as [H' Ht]. injection H' as <-.
  split; [exact Ht|]. split; [apply trim_isTrimmed|].
  exists e. now repeat split.
Qed.

(** X12. Every target that the parser or the resolver returns has an id
    that is not empty and has no white space at either end. *)
Theorem target_id_nonempty_trimmed
    raw (options : DirectoryConfigParams) parseOptions t :
  (parseDiscordTarget raw parseOptions = Ok (Some t) ->
   truthy (target_id t) = true /\ isTrimmed (target_id t) = true)
  /\ (forall directory :
        DirectoryConfigParams -> jsstring -> N -> result (list DirectoryEntry),
        run directory
          (resolveDiscordTarget toLowerCase raw options parseOptions)
          = Ok (Some t) ->
        truthy (target_id t) = true /\ isTrimmed (target_id t) = true).
Proof.
  split; [apply parseDiscordTarget_id|].
  intros directory.
  destruct (resolveDiscordTarget toLowerCase raw options parseOptions)
    as [r|params query limit k] eqn:E.
  - cbn [run]. intros ->.
    assert (Hr : Ok (Some t) = parseDiscordTarget raw parseOptions).
    { revert E. unfold resolveDiscordTarget, safeParseDiscordTarget.
      cbv zeta. rewrite parseDiscordTarget_trim.
      destruct (truthy (trim raw)); cbn [negb]; [|discriminate].
      destruct (parseDiscordTarget raw parseOptions) as [[t'|]|e];
        repeat match goal with
        | |- (if ?b then _ else _) = _ -> _ => destruct b
        end;
        intros H; try discriminate; now injection H as <-. }
    symmetry in Hr. now apply parseDiscordTarget_id in Hr.
  - revert E. unfold resolveDiscordTarget. cbv zeta.
    repeat match goal with
    | |- (if ?b then _ else _) = _ -> _ => destruct b; [discriminate|]
    end.
    intros H. injection H as <- <- <- <-. cbn [run]. unfold bind at 1.
    destruct (directory options (trim raw) 5) as [entries|]; [|discriminate].
    destruct (nonEmpty _) as [selected|] eqn:En;
      [|destruct entries; discriminate].
    apply nonEmpty_some in En as [En Ht].
    apply selectDiscordUserMatch_from_entry in En as [_ [Hi _]].
    unfold buildMessagingTarget. rewrite Ht. cbn [bind].
    intros H. injection H as <-. now split.
Qed.

(** X13. The disambiguator invents no id: what it returns is the id of
    an entry of kind [user] among the entries passed in, without a leading
    [user:] in any case and trimmed, and it is never the empty string. *)
Theorem selectDiscordUserMatch_sound query entries id :
  selectDiscordUserMatch toLowerCase query entries = Some id ->
  truthy id = true
  /\ exists entry i,
       In entry entries
       /\ entry_kind entry = Some (lit "user")
       /\ entry_id entry = Some i
       /\ id = trim (stripUserPrefixIgnoreCase i).
Proof.
  intros H.
  apply selectDiscordUserMatch_from_entry in H as [Ht [_ [e [Hin [Hu Hr]]]]].
  split; [exact Ht|].
  unfold isUserEntry in Hu. apply andb_prop in Hu as [Hk _].
  unfold resolvedId in Hr.
  destruct (entry_id e) as [i|] eqn:Ei; [|discriminate].
  apply nonEmpty_some in Hr as [Hr _]. injection Hr as <-.
  exists e, i. repeat split; try assumption.
  unfold optEquals in Hk. destruct (entry_kind e) as [k|]; [|discriminate].
  apply str_eqb_eq in Hk. now subst k.
Qed.

(** X14. Entries that are no candidates do not count: an entry whose
    kind is not [user], or whose id is missing or empty, can be added to
    the entries or removed from them, at any place, without changing what
    the disambiguator returns. *)
Theorem selectDiscordUserMatch_ignores_non_users query before entry after :
  isUserEntry entry = false ->
  selectDiscordUserMatch toLowerCase query (before ++ entry :: after)
    = selectDiscordUserMatch toLowerCase query (before ++ after).
Proof.
  intros H. unfold selectDiscordUserMatch.
  rewrite !filter_app. simpl. now rewrite H.
Qed.

(** X15. The disambiguator is independent of the order of the entries:
    it returns the same on any two lists that are permutations of each
    other. *)
Theorem selectDiscordUserMatch_order_independent query entries entries' :
  Permutation entries entries' ->
  selectDiscordUserMatch toLowerCase query entries
    = selectDiscordUserMatch toLowerCase query entries'.
Proof.
  intros Hp. unfold selectDiscordUserMatch.
  set (g := isExactMatch toLowerCase (toLowerCase (trim query))).
  pose proof (Permutation_filter_both isUserEntry _ _ Hp) as Pu.
  pose proof (Permutation_filter_both g _ _ Pu) as Pe.
  set (users := filter isUserEntry entries) in *.
  set (users' := filter isUserEntry entries') in *.
  set (exact := filter g users) in *.
  set (exact' := filter g users') in *.
  clearbody exact exact' users users'.
  pose proof (singleton_or_not _ _ Pu) as Hu.
  pose proof (singleton_or_not _ _ Pe) as He.
  apply Permutation_length in Pu, Pe.
  destruct users as [|u [|v us]], users' as [|u' [|v' us']];
    try discriminate; try reflexivity;
    destruct exact as [|x [|y l]], exact' as [|x' [|y' l']];
    try discriminate; try reflexivity;
    try (injection Hu as <-); try (injection He as <-); reflexivity.
Qed.

Lemma selectDiscordUserMatch_single query entry :
  isUserEntry entry = true ->
  selectDiscordUserMatch toLowerCase query [entry] = resolvedId entry.
Proof.
  intros H. unfold selectDiscordUserMatch. simpl. rewrite H. simpl.
  destruct (isExactMatch toLowerCase (toLowerCase (trim query)) entry);
    apply chosen_entry_id.
Qed.

(** X16. From a name to a user through a single hit: when the trimmed
    input is a likely username and the directory answers with one entry
    of kind [user] whose id, without a leading [user:] and trimmed, is not
    empty, the resolver returns the user target with that id and the
    trimmed input as [raw], whether or not the entry matches the input. *)
Theorem resolveDiscordTarget_single_hit
    raw (options : DirectoryConfigParams) parseOptions
    (directory :
       DirectoryConfigParams -> jsstring -> N -> result (list DirectoryEntry))
    entry id :
  truthy (trim raw) = true ->
  isLikelyUsername (trim raw) = true ->
  directory options (trim raw) 5 = Ok [entry] ->
  isUserEntry entry = true ->
  resolvedId entry = Some id ->
  run directory (resolveDiscordTarget toLowerCase raw options parseOptions)
    = Ok (Some (mkTarget user id (trim raw))).
Proof.
  intros Ht Hl Hd Hu Hr. unfold resolveDiscordTarget. cbv zeta.
  rewrite Ht, Hl, orb_true_r. cbn [negb].
  assert (Hb : match safeParseDiscordTarget (trim raw) parseOptions with
               | Some t => negb (kind_eqb (target_kind t) channel) && false
               | None => false
               end = false)
    by (destruct (safeParseDiscordTarget _ _); [apply andb_false_r | reflexivity]).
  rewrite Hb. cbn [run]. rewrite Hd. cbn [bind].
  rewrite (selectDiscordUserMatch_single _ _ Hu), Hr.
  assert (Hi : truthy id = true).
  { unfold resolvedId in Hr. destruct (entry_id entry); [|discriminate].
    now apply nonEmpty_some in Hr. }
  cbn [nonEmpty]. rewrite Hi. unfold buildMessagingTarget. now rewrite Hi.
Qed.

End ResolverCoverage.

(** X17. The channel-id helper never throws the ambiguity error: on a
    string of digits it returns the digits. What it returns is never
    empty and has no white space at either end, and when it throws, the
    error is that of a leading [@] without a numeric id or the kind
    mismatch labeled [Discord]. *)
Theorem resolveDiscordChannelId_outcomes raw :
  (allDigits (trim raw) = true -> resolveDiscordChannelId raw = Ok (trim raw))
  /\ (forall id, resolveDiscordChannelId raw = Ok id ->
        truthy id = true /\ isTrimmed id = true)
  /\ (forall e, resolveDiscordChannelId raw = Throw e ->
        e = Error invalidMentionMessage
        \/ exists got, e = KindMismatch (lit "Discord") channel got).
Proof.
  unfold resolveDiscordChannelId. split; [|split].
  - intros H. rewrite <- parseDiscordTarget_trim.
    now rewrite (parseDiscordTarget_digits _ _ H).
  - intros id.
    destruct (parseDiscordTarget raw (mkOptions (Some channel) None))
      as [[t|]|e] eqn:Hp; cbn [bind requireTargetKind]; try discriminate.
    apply parseDiscordTarget_id in Hp.
    destruct (kind_eqb (target_kind t) channel); [|discriminate].
    intros H. injection H as <-. exact Hp.
  - intros e. parse_rules raw; cbn [bind requireTargetKind kind_eqb target_kind];
      repeat match goal with
      | |- context [if truthy ?s then _ else _] => destruct (truthy s)
      | |- context [if allDigits ?s then _ else _] => destruct (allDigits s)
      end;
      cbn [bind requireTargetKind kind_eqb target_kind defaultKind];
      intros H; try discriminate; injection H as <-;
      (now left) || (right; eexists; reflexivity).
Qed.

(** ** The further statements on concrete inputs *)

Lemma blank_input_is_undefined_witness :
  parseDiscordTarget [32; 9; 160; 10] noOptions = Ok None
  /\ resolveDiscordTarget asciiToLowerCase [32; 9; 160; 10] tt noOptions
     = Return (Ok None).
Proof.
  apply (blank_input_is_undefined asciiToLowerCase unit
           [32; 9; 160; 10] tt noOptions).
  reflexivity.
Defined.

Lemma surrounding_whitespace_ignored_witness :
  parseDiscordTarget ([32; 9] ++ lit "user:5" ++ [13; 10]) noOptions
    = parseDiscordTarget (lit "user:5") noOptions
  /\ resolveDiscordChannelId ([32; 9] ++ lit "user:5" ++ [13; 10])
     = resolveDiscordChannelId (lit "user:5")
  /\ resolveDiscordTarget asciiToLowerCase
       ([32; 9] ++ lit "user:5" ++ [13; 10]) tt noOptions
     = resolveDiscordTarget asciiToLowerCase (lit "user:5") tt noOptions.
Proof.
  apply (surrounding_whitespace_ignored asciiToLowerCase unit
           [32; 9] (lit "user:5") [13; 10] tt noOptions); reflexivity.
Defined.

Lemma resolveDiscordTarget_without_lookup_witness :
  Ok (Some (mkTarget channel (lit "dev") (lit "channel:dev")))
    = parseDiscordTarget (lit "channel:dev") noOptions
  /\ Throw (Error (ambiguousRecipientMessage (lit "123")))
     = parseDiscordTarget (lit "123") noOptions.
Proof.
  split.
  - apply (resolveDiscordTarget_without_lookup asciiToLowerCase unit
             (lit "channel:dev") tt noOptions).
    reflexivity.
  - apply (resolveDiscordTarget_without_lookup asciiToLowerCase unit
             (lit "123") tt noOptions).
    reflexivity.
Defined.

Lemma resolveDiscordTarget_likely_username_witness :
  parseDiscordTarget (lit " general ") noOptions
    = Ok (Some (mkTarget channel (lit "general") (lit "general")))
  /\ directoryCalls
       (resolveDiscordTarget asciiToLowerCase (lit " general ") tt noOptions)
     = 1%nat
  /\ run (fun _ _ _ => Ok [])
         (resolveDiscordTarget asciiToLowerCase (lit " general ") tt noOptions)
     <> Ok (Some (mkTarget channel (lit "general") (lit "general"))).
Proof.
  pose proof (resolveDiscordTarget_likely_username asciiToLowerCase unit
                (lit " general ") tt noOptions eq_refl eq_refl)
    as [Hparse [_ [Hcalls Hrun]]].
  split; [exact Hparse|]. split; [exact Hcalls|].
  intros E. specialize (Hrun (fun _ _ _ => Ok [])).
  rewrite E in Hrun. discriminate Hrun.
Defined.

Lemma resolveDiscordTarget_digits_or_channel_witness :
  resolveDiscordTarget asciiToLowerCase (lit "123") tt
    (mkOptions (Some user) None)
    = Return (parseDiscordTarget (lit "123") (mkOptions (Some user) None))
  /\ resolveDiscordTarget asciiToLowerCase (lit "channel:general") tt noOptions
     = Return (parseDiscordTarget (lit "channel:general") noOptions).
Proof.
  split.
  - apply (resolveDiscordTarget_digits_or_channel asciiToLowerCase unit
             (lit "123") tt (mkOptions (Some user) None)).
    left. reflexivity.
  - apply (resolveDiscordTarget_digits_or_channel asciiToLowerCase unit
             (lit "channel:general") tt noOptions).
    right. reflexivity.
Defined.

Lemma resolveDiscordTarget_unparsed_explicit_witness :
  (exists k,
     resolveDiscordTarget asciiToLowerCase (lit "@bob") tt noOptions
       = Await tt (trim (lit "@bob")) 5 k
     /\ k [] = Throw (Error (didNotMatchMessage (trim (lit "@bob")))))
  /\ (exists k,
        resolveDiscordTarget asciiToLowerCase (lit "user: ") tt noOptions
          = Await tt (trim (lit "user: ")) 5 k
        /\ k [] = Throw (Error (didNotMatchMessage (trim (lit "user: "))))).
Proof.
  split.
  - apply (resolveDiscordTarget_unparsed_explicit asciiToLowerCase unit
             (lit "@bob") tt noOptions).
    left. split; reflexivity.
  - apply (resolveDiscordTarget_unparsed_explicit asciiToLowerCase unit
             (lit "user: ") tt noOptions).
    right. left. reflexivity.
Defined.

Lemma target_id_nonempty_trimmed_witness :
  truthy (lit "5") = true /\ isTrimmed (lit "5") = true.
Proof.
  apply (proj1 (target_id_nonempty_trimmed asciiToLowerCase unit
                  (lit " user: 5 ") tt noOptions
                  (mkTarget user (lit "5") (lit "user: 5")))).
  reflexivity.
Defined.

Lemma selectDiscordUserMatch_sound_witness :
  truthy (lit "5") = true
  /\ exists entry i,
       In entry [mkEntry (Some (lit "user")) (Some (lit "User: 5"))
                         None (Some (lit "@bob"))]
       /\ entry_kind entry = Some (lit "user")
       /\ entry_id entry = Some i
       /\ lit "5" = trim (stripUserPrefixIgnoreCase i).
Proof.
  apply (selectDiscordUserMatch_sound asciiToLowerCase (lit "xyz")).
  reflexivity.
Defined.

Lemma selectDiscordUserMatch_ignores_non_users_witness :
  selectDiscordUserMatch asciiToLowerCase (lit "xyz")
    ([mkEntry (Some (lit "user")) (Some (lit "5")) None (Some (lit "@bob"))]
     ++ mkEntry (Some (lit "channel")) (Some (lit "7")) (Some (lit "xyz")) None
     :: [mkEntry (Some (lit "user")) None (Some (lit "xyz")) None])
  = selectDiscordUserMatch asciiToLowerCase (lit "xyz")
      ([mkEntry (Some (lit "user")) (Some (lit "5")) None (Some (lit "@bob"))]
       ++ [mkEntry (Some (lit "user")) None (Some (lit "xyz")) None]).
Proof.
  apply (selectDiscordUserMatch_ignores_non_users asciiToLowerCase).
  reflexivity.
Defined.

Lemma selectDiscordUserMatch_order_independent_witness :
  selectDiscordUserMatch asciiToLowerCase (lit "bob")
    [mkEntry (Some (lit "user")) (Some (lit "1")) (Some (lit "Alice")) None;
     mkEntry (Some (lit "user")) (Some (lit "5")) None (Some (lit "@Bob"))]
  = selectDiscordUserMatch asciiToLowerCase (lit "bob")
      [mkEntry (Some (lit "user")) (Some (lit "5")) None (Some (lit "@Bob"));
       mkEntry (Some (lit "user")) (Some (lit "1")) (Some (lit "Alice")) None].
Proof.
  apply (selectDiscordUserMatch_order_independent asciiToLowerCase).
  apply perm_swap.
Defined.

Lemma resolveDiscordTarget_single_hit_witness :
  run (fun _ _ _ =>
         Ok [mkEntry (Some (lit "user")) (Some (lit "user:77"))
                     (Some (lit "Jane Roe")) None])
      (resolveDiscordTarget asciiToLowerCase (lit " jane ") tt noOptions)
  = Ok (Some (mkTarget user (lit "77") (trim (lit " jane ")))).
Proof.
  apply (resolveDiscordTarget_single_hit asciiToLowerCase unit
           (lit " jane ") tt noOptions
           (fun _ _ _ =>
              Ok [mkEntry (Some (lit "user")) (Some (lit "user:77"))
                          (Some (lit "Jane Roe")) None])
           (mkEntry (Some (lit "user")) (Some (lit "user:77"))
                    (Some (lit "Jane Roe")) None));
    reflexivity.
Defined.

Lemma resolveDiscordChannelId_outcomes_witness :
  resolveDiscordChannelId (lit " 123 ") = Ok (trim (lit " 123 "))
  /\ (truthy (lit "general") = true /\ isTrimmed (lit "general") = true)
  /\ (Error invalidMentionMessage = Error invalidMentionMessage
      \/ exists got,
           Error invalidMentionMessage
           = KindMismatch (lit "Discord") channel got).
Proof.
  split; [|split].
  - apply (proj1 (resolveDiscordChannelId_outcomes (lit " 123 "))).
    reflexivity.
  - apply (proj1 (proj2 (resolveDiscordChannelId_outcomes (lit "general")))).
    reflexivity.
  - apply (proj2 (proj2 (resolveDiscordChannelId_outcomes (lit "@x")))).
    reflexivity.
Defined.
